(** * Nexus URL shortener: a shallow embedding of [app/] and its properties

    The development follows the layout of the Python package:
    - [app/database.py]   : the two tables, [URL] and [Click], and the session;
    - [app/services.py]   : [URLService] and [AnalyticsService];
    - [app/main.py]       : the HTTP handlers;
    - [app/middleware.py] : [RateLimiter].

    Conventions of the embedding.
    - A SQLAlchemy session is the pair of its two tables, each a list of rows
      in insertion order (the order [.first()] and [.all()] follow).
    - Python exceptions are values of [exn]; a call returns or raises
      ([outcome]).  The [while True] loop of [create_short_url] runs on fuel,
      one unit per iteration: the result is [None] while the loop is still
      running when the fuel is spent.
    - The libraries the package calls ([validators.url], [user_agents.parse],
      [random.choice], the clock, the Redis client) are parameters: section
      variables or explicit arguments of the operation that consults them. *)

From Stdlib Require Import ZArith String Ascii List Lia.
From stdpp Require Import gmap strings sorting pretty.

Local Open Scope Z_scope.
Local Open Scope string_scope.

(** ** Exceptions and outcomes *)

Inductive exn : Type :=
| ValueError (msg : string)
| HTTPException (status_code : Z) (detail : string)
| AttributeError (msg : string)
| IntegrityError
| OperationalError          (* a store failure raised by SQLAlchemy *)
| PendingRollbackError      (* the session was used after a failed flush *)
| UserAgentError            (* a failure inside [user_agents.parse] *)
| RedisError (msg : string)
| OtherException (msg : string).

Inductive outcome (A : Type) : Type :=
| Returned (a : A)
| Raised (e : exn).

Arguments Returned {A} a.
Arguments Raised {A} e.

#[global] Instance outcome_ret : MRet outcome := fun A a => Returned a.

#[global] Instance outcome_bind : MBind outcome := fun A B k m =>
  match m with
  | Returned a => k a
  | Raised e => Raised e
  end.

(** What the handlers read of a [fastapi.Request]: [request.client] (absent
    when the server passes no peer address) and two headers. *)
Record Request : Type := mkRequest {
  client_host : option string;
  header_user_agent : option string;
  header_referer : option string
}.

(** Python truthiness of an [Optional[str]]: [None] and [''] are falsy. *)
Definition truthy (s : option string) : bool :=
  match s with
  | Some s => negb (String.eqb s "")
  | None => false
  end.

(** ** app/database.py *)

Module URL.
Record t : Type := mk {
  id : Z;
  original_url : string;
  short_code : string;
  created_at : Z;
  click_count : Z;
  is_active : bool;
  creator_ip : option string
}.
End URL.

Module Click.
Record t : Type := mk {
  id : Z;
  short_code : string;
  clicked_at : Z;
  ip_address : option string;
  user_agent : option string;
  referer : option string;
  country : option string;
  city : option string
}.
End Click.

Record Session : Type := mkSession {
  urls : list URL.t;
  clicks : list Click.t
}.

Definition empty_db : Session := {| urls := []; clicks := [] |}.

(** Integer primary keys: the store assigns one more than the largest key
    in the table (1 in an empty table). *)
Definition next_id (ids : list Z) : Z := 1 + fold_right Z.max 0 ids.

(** [db.query(URL).filter(URL.short_code == code).first()] *)
Definition first_url_with_code (db : Session) (code : string) : option URL.t :=
  List.find (fun u => String.eqb (URL.short_code u) code) (urls db).

(** [db.add(url_obj); db.commit(); db.refresh(url_obj)]: the column defaults
    ([click_count = 0], [is_active = True], [created_at = utcnow()]) and the
    key are filled in by the store; [short_code] is declared [unique=True],
    so the commit raises when the code is already in the table.  Other
    failures of the store at this commit are not part of the model; no
    property below speaks of their absence. *)
Definition add_url (db : Session) (now : Z) (original_url short_code : string)
    (creator_ip : option string) : outcome (URL.t * Session) :=
  if existsb (fun u => String.eqb (URL.short_code u) short_code) (urls db)
  then Raised IntegrityError
  else
    let url_obj := URL.mk (next_id (map URL.id (urls db))) original_url
                          short_code now 0 true creator_ip in
    Returned (url_obj, {| urls := urls db ++ [url_obj]; clicks := clicks db |}).

(** [db.add(click); db.commit()] *)
Definition add_click (db : Session) (now : Z) (short_code : string)
    (ip_address user_agent referer country city : option string) : Session :=
  let click := Click.mk (next_id (map Click.id (clicks db))) short_code now
                        ip_address user_agent referer country city in
  {| urls := urls db; clicks := clicks db ++ [click] |}.

(** ** app/services.py *)

Module URLService.

(** [string.ascii_letters + string.digits] *)
Definition characters : string :=
  "abcdefghijklmnopqrstuvwxyzABCDEFGHIJKLMNOPQRSTUVWXYZ0123456789".

(** [random.choice(characters)]: the draw selects an index below
    [len(characters)]. *)
Definition random_choice (draw : nat) : ascii :=
  match String.get (draw mod String.length characters) characters with
  | Some c => c
  | None => "a"%char
  end.

(** The random source is a sequence of draws [rand] read at a cursor. *)
Fixpoint generate_short_code (rand : nat -> nat) (length : nat) (pos : nat)
    : string * nat :=
  match length with
  | O => ("", pos)
  | S n =>
      let (rest, pos') := generate_short_code rand n (S pos) in
      (String (random_choice (rand pos)) rest, pos')
  end.

(** The [while True] loop of [create_short_url]: one iteration per unit of
    fuel. *)
Fixpoint generate_unique (fuel : nat) (rand : nat -> nat) (db : Session)
    (pos : nat) : option (string * nat) :=
  match fuel with
  | O => None
  | S fuel' =>
      let (short_code, pos') := generate_short_code rand 6 pos in
      match first_url_with_code db short_code with
      | None => Some (short_code, pos')
      | Some _ => generate_unique fuel' rand db pos'
      end
  end.

Section WithValidators.

(** [validators.url] *)
Variable validators_url : string -> bool.

Definition create_short_url (fuel : nat) (rand : nat -> nat) (now : Z)
    (db : Session) (pos : nat) (original_url : string)
    (custom_code creator_ip : option string)
    : option (outcome (URL.t * Session * nat)) :=
  let insert (short_code : string) (pos' : nat) :=
    '(url_obj, db') ← add_url db now original_url short_code creator_ip ;
    mret (url_obj, db', pos') in
  if negb (validators_url original_url) then
    Some (Raised (ValueError "Invalid URL format"))
  else if truthy custom_code then
    match first_url_with_code db (default "" custom_code) with
    | Some _ => Some (Raised (ValueError "Custom code already exists"))
    | None => Some (insert (default "" custom_code) pos)
    end
  else
    '(short_code, pos') ← generate_unique fuel rand db pos ;
    Some (insert short_code pos').

End WithValidators.

(** [filter(URL.short_code == short_code, URL.is_active == True).first()] *)
Definition get_url_by_code (db : Session) (short_code : string)
    : option URL.t :=
  List.find (fun u => String.eqb (URL.short_code u) short_code
                      && Bool.eqb (URL.is_active u) true) (urls db).

(** [url.click_count += 1] *)
Definition bump (url : URL.t) : URL.t :=
  URL.mk (URL.id url) (URL.original_url url) (URL.short_code url)
         (URL.created_at url) (URL.click_count url + 1) (URL.is_active url)
         (URL.creator_ip url).

(** The update reaches the row that [.first()] returned: the first one with
    the code. *)
Fixpoint bump_first (short_code : string) (rows : list URL.t) : list URL.t :=
  match rows with
  | [] => []
  | u :: rows' =>
      if String.eqb (URL.short_code u) short_code then bump u :: rows'
      else u :: bump_first short_code rows'
  end.

(** [commit_fails]: the store rejects the [db.commit()] of this call. *)
Definition increment_click_count (commit_fails : bool) (db : Session)
    (short_code : string) : outcome unit * Session :=
  match first_url_with_code db short_code with
  | Some _ =>
      if commit_fails then (Raised OperationalError, db)
      else (Returned tt,
            {| urls := bump_first short_code (urls db); clicks := clicks db |})
  | None => (Returned tt, db)
  end.

End URLService.

(** Store failures injected into one call of [track_click]: at the commit of
    the click row, and at the commit of the counter. *)
Record Faults : Type := mkFaults {
  click_commit_fails : bool;
  count_commit_fails : bool
}.

Definition no_faults : Faults := mkFaults false false.

(** [collections.Counter]: a dict from value to count, in insertion order. *)
Module Counter.

Fixpoint add (k : string) (c : list (string * nat)) : list (string * nat) :=
  match c with
  | [] => [(k, 1%nat)]
  | (k', n) :: c' =>
      if String.eqb k' k then (k', S n) :: c' else (k', n) :: add k c'
  end.

Definition of_list (l : list string) : list (string * nat) :=
  fold_left (fun c k => add k c) l [].

(** [sorted(items, key=itemgetter(1), reverse=True)]: a stable sort, so
    items of equal count keep their order. *)
Fixpoint insert (x : string * nat) (l : list (string * nat))
    : list (string * nat) :=
  match l with
  | [] => [x]
  | y :: l' => if (snd x <? snd y)%nat then y :: insert x l' else x :: l
  end.

Definition sorted (c : list (string * nat)) : list (string * nat) :=
  fold_right insert [] c.

(** [most_common(n)] is [heapq.nlargest(n, items, key=itemgetter(1))],
    documented as [sorted(items, key=..., reverse=True)[:n]]. *)
Definition most_common (n : nat) (c : list (string * nat))
    : list (string * nat) :=
  take n (sorted c).

End Counter.

Module AnalyticsService.

Record Analytics : Type := mkAnalytics {
  total_clicks : nat;
  unique_ips : nat;
  top_countries : list (string * nat);
  top_referrers : list (string * nat);
  click_history : list (Z * nat);
  browser_stats : list (string * nat)
}.

Section WithUserAgents.

(** [user_agents.parse(s)], reduced to the two attributes that are read:
    [ua.browser.family] and [ua.browser.version_string]. *)
Variable user_agents_parse : string -> outcome (string * string).

Definition track_click (faults : Faults) (now : Z) (db : Session)
    (short_code ip_address user_agent : string) (referer : option string)
    : outcome unit * Session :=
  match user_agents_parse user_agent with
  | Returned (family, version_string) =>
      if click_commit_fails faults then (Raised OperationalError, db)
      else
        let db' := add_click db now short_code (Some ip_address)
                     (Some (family +:+ " " +:+ version_string)) referer
                     (Some "Unknown") (Some "Unknown") in
        URLService.increment_click_count (count_commit_fails faults)
          db' short_code
  | Raised e => (Raised e, db)
  end.

(** Whether a call of [track_click] reaches a [db.commit()] that the store
    rejects (the flush of the click row, or of the counter, fails).  Such a
    commit leaves the session rolled back and its rows expired, and the
    session stays so until [rollback()] is called, which nothing in the
    package does. *)
Definition commit_failed (faults : Faults) (db : Session)
    (short_code user_agent : string) : bool :=
  match user_agents_parse user_agent with
  | Returned _ =>
      click_commit_fails faults
      || (count_commit_fails faults
          && bool_decide (is_Some (first_url_with_code db short_code)))
  | Raised _ => false
  end.

End WithUserAgents.

(** [[f(click) for click in clicks if f(click)]] *)
Definition truthy_values (f : Click.t -> option string)
    (rows : list Click.t) : list string :=
  omap (fun c => if truthy (f c) then f c else None) rows.

(** Seconds in a day; [clicked_at.date()] is the day number of a
    timestamp counted in seconds, and ISO dates sort as day numbers do. *)
Definition day : Z := 86400.

Definition history_add (h : gmap Z nat) (c : Click.t) : gmap Z nat :=
  let date_key := Click.clicked_at c / day in
  <[date_key := S (default O (h !! date_key))]> h.

(** [sorted(click_history.items())]: by date, the keys being distinct. *)
Definition date_le (a b : Z * nat) : Prop := (fst a <= fst b)%Z.

#[global] Instance date_le_dec : RelDecision date_le.
Proof. intros a b. unfold date_le. apply _. Defined.

Definition get_analytics (now : Z) (db : Session) (short_code : string)
    : Analytics :=
  let clicks :=
    List.filter (fun c => String.eqb (Click.short_code c) short_code)
                (clicks db) in
  match clicks with
  | [] => mkAnalytics 0 0 [] [] [] []
  | _ =>
      let thirty_days_ago := now - 30 * day in
      let recent_clicks :=
        List.filter (fun c => (thirty_days_ago <=? Click.clicked_at c)%Z) clicks in
      mkAnalytics
        (length clicks)
        (size (list_to_set (truthy_values Click.ip_address clicks)
                 : gset string))
        (Counter.most_common 5
           (Counter.of_list (truthy_values Click.country clicks)))
        (Counter.most_common 5
           (Counter.of_list (truthy_values Click.referer clicks)))
        (merge_sort date_le
           (map_to_list (fold_left history_add recent_clicks (∅ : gmap Z nat))))
        (Counter.most_common 5
           (Counter.of_list (truthy_values Click.user_agent clicks)))
  end.

End AnalyticsService.

(** ** app/main.py *)

Module main.

Inductive Response : Type :=
| RedirectResponse (url : string) (status_code : Z)
| URLResponse (url_obj : URL.t)
| AnalyticsResponse (analytics_data : AnalyticsService.Analytics).

(** [request.client.host] *)
Definition request_client_host (request : Request) : outcome string :=
  match client_host request with
  | Some host => Returned host
  | None => Raised (AttributeError "'NoneType' object has no attribute 'host'")
  end.

Section Handlers.

Variable validators_url : string -> bool.
Variable user_agents_parse : string -> outcome (string * string).

(** [POST /shorten] *)
Definition create_short_url (fuel : nat) (rand : nat -> nat) (now : Z)
    (db : Session) (pos : nat) (original_url : string)
    (custom_code : option string) (request : Request)
    : option (outcome Response * Session * nat) :=
  let internal_error :=
    Raised (HTTPException 500 "Internal server error") in
  match request_client_host request with
  | Returned creator_ip =>
      r ← URLService.create_short_url validators_url fuel rand now db pos
             original_url custom_code (Some creator_ip) ;
      Some match r with
           | Returned (url_obj, db', pos') =>
               (Returned (URLResponse url_obj), db', pos')
           | Raised (ValueError msg) =>
               (Raised (HTTPException 400 msg), db, pos)
           | Raised _ => (internal_error, db, pos)
           end
  | Raised _ => Some (internal_error, db, pos)
  end.

(** [GET /{short_code}].  The tracking step runs inside
    [try: ... except Exception: pass]; the response is built after it, from
    [url_obj.original_url], an attribute of a row of the same session.  When
    a commit of the tracking step failed, that read finds the row expired in
    a session that needs a rollback, and raises. *)
Definition redirect_url (faults : Faults) (now : Z) (db : Session)
    (short_code : string) (request : Request)
    : outcome Response * Session :=
  match URLService.get_url_by_code db short_code with
  | None => (Raised (HTTPException 404 "Short URL not found"), db)
  | Some url_obj =>
      let user_agent := default "" (header_user_agent request) in
      let tracked :=
        match request_client_host request with
        | Returned ip_address =>
            AnalyticsService.track_click user_agents_parse faults now db
              short_code ip_address user_agent (header_referer request)
        | Raised e => (Raised e, db)
        end in
      let needs_rollback :=
        match request_client_host request with
        | Returned _ =>
            AnalyticsService.commit_failed user_agents_parse faults db
              short_code user_agent
        | Raised _ => false
        end in
      (* except Exception: pass *)
      let db' := snd tracked in
      (* return RedirectResponse(url=url_obj.original_url, ...) *)
      if needs_rollback then (Raised PendingRollbackError, db')
      else (Returned (RedirectResponse (URL.original_url url_obj) 302), db')
  end.

(** [GET /api/analytics/{short_code}] *)
Definition get_analytics (now : Z) (db : Session) (short_code : string)
    : outcome Response :=
  match URLService.get_url_by_code db short_code with
  | None => Raised (HTTPException 404 "Short URL not found")
  | Some _ =>
      Returned (AnalyticsResponse
                  (AnalyticsService.get_analytics now db short_code))
  end.

End Handlers.

(** [GET /api/urls/{short_code}]; [URLResponse url_obj] stands for the body
    built from the fields of the row (and [BASE_URL]). *)
Definition get_url_info (db : Session) (short_code : string)
    : outcome Response :=
  match URLService.get_url_by_code db short_code with
  | None => Raised (HTTPException 404 "Short URL not found")
  | Some url_obj => Returned (URLResponse url_obj)
  end.

(** [GET /api/urls]: [db.query(URL).offset(skip).limit(limit).all()], with
    no filter on [is_active]; for [skip] and [limit] that are not negative
    (what a negative one means is up to the store). *)
Definition list_urls (skip limit : nat) (db : Session) : list Response :=
  map URLResponse (take limit (drop skip (urls db))).

End main.

(** ** app/middleware.py *)

Module RateLimiter.

(** The attributes of a [RateLimiter] object.  [memory_store] is [None]
    when the object has no such attribute. *)
Record t : Type := mk {
  redis_client : option string;
  redis_available : bool;
  memory_store : option (gmap string (list Z))
}.

(** [__init__]; [from_url] is the outcome of [redis.from_url(redis_url)],
    which returns the client (here, its URL) or raises.  The bare
    [except:] handles whatever is raised. *)
Definition __init__ (from_url : outcome string) : t :=
  match from_url with
  | Returned client =>
      {| redis_client := Some client; redis_available := true;
         memory_store := None |}
  | _ =>
      {| redis_client := None; redis_available := false;
         memory_store := Some ∅ |}
  end.

Definition detail_memory (max_requests : Z) : string :=
  "Rate limit exceeded. Max " +:+ pretty max_requests
    +:+ " requests per minute.".

Definition detail_redis (max_requests window_seconds : Z) : string :=
  "Rate limit exceeded. Max " +:+ pretty max_requests
    +:+ " requests per " +:+ pretty window_seconds +:+ " seconds.".

Definition no_memory_store : exn :=
  AttributeError "'RateLimiter' object has no attribute 'memory_store'".

Definition _check_memory_rate_limit (self : t) (client_ip : string)
    (current_time window_start max_requests : Z) : outcome unit * t :=
  match memory_store self with
  | None => (Raised no_memory_store, self)
  | Some store =>
      (* a client not yet in the store gets an empty request list *)
      let requests := default [] (store !! client_ip) in
      (* clean old requests, add the current one *)
      let requests :=
        (filter (fun req_time => window_start < req_time) requests
           ++ [current_time])%list in
      let self' :=
        {| redis_client := redis_client self;
           redis_available := redis_available self;
           memory_store := Some (<[client_ip := requests]> store) |} in
      if (max_requests <? Z.of_nat (length requests))%Z
      then (Raised (HTTPException 429 (detail_memory max_requests)), self')
      else (Returned tt, self')
  end.

(** [check_rate_limit]; [pipe_execute] is the outcome of [pipe.execute()]
    on the pipeline of four commands, [current_time] is
    [int(time.time())]. *)
Definition check_rate_limit (self : t) (pipe_execute : outcome (list Z))
    (current_time : Z) (request : Request) (max_requests window_seconds : Z)
    : outcome unit * t :=
  match main.request_client_host request with
  | Returned client_ip =>
      let window_start := current_time - window_seconds in
      if redis_available self && bool_decide (is_Some (redis_client self))
      then
        match pipe_execute with
        | Returned results =>
            match results !! 2%nat with
            | Some request_count =>
                if (max_requests <? request_count)%Z
                then (Raised (HTTPException 429
                                (detail_redis max_requests window_seconds)),
                      self)
                else (Returned tt, self)
            | None => (Raised (OtherException "IndexError"), self)
            end
        | Raised (RedisError _) =>
            (* fallback to memory storage if Redis fails *)
            _check_memory_rate_limit self client_ip current_time
              window_start max_requests
        | Raised e => (Raised e, self)
        end
      else
        _check_memory_rate_limit self client_ip current_time window_start
          max_requests
  | Raised e => (Raised e, self)
  end.

(** A client's successive checks at the times [ts], as [check_rate_limit]
    issues them to the in-memory path: [window_start] is
    [current_time - window_seconds]. *)
Fixpoint memory_checks (self : t) (client_ip : string)
    (max_requests window_seconds : Z) (ts : list Z)
    : list (outcome unit) * t :=
  match ts with
  | [] => ([], self)
  | current_time :: ts' =>
      let (r, self') :=
        _check_memory_rate_limit self client_ip current_time
          (current_time - window_seconds) max_requests in
      let (rs, self'') :=
        memory_checks self' client_ip max_requests window_seconds ts' in
      (r :: rs, self'')
  end.

End RateLimiter.

(** ** Runs of the service

    A run is a sequence of calls of the two handlers that write to the
    store, threaded through the store and the cursor of the random source.
    A call of [POST /shorten] whose loop never ends ([None] for the given
    fuel) writes nothing. *)

Inductive ApiCall : Type :=
| Shorten (fuel : nat) (now : Z) (original_url : string)
    (custom_code : option string) (request : Request)
| Redirect (faults : Faults) (now : Z) (short_code : string)
    (request : Request).

Section Runs.

Variable validators_url : string -> bool.
Variable user_agents_parse : string -> outcome (string * string).
Variable rand : nat -> nat.

Definition api_step (w : Session * nat) (call : ApiCall) : Session * nat :=
  match call with
  | Shorten fuel now original_url custom_code request =>
      match main.create_short_url validators_url fuel rand now (fst w)
              (snd w) original_url custom_code request with
      | Some (_, db', pos') => (db', pos')
      | None => w
      end
  | Redirect faults now short_code request =>
      (snd (main.redirect_url user_agents_parse faults now (fst w)
              short_code request), snd w)
  end.

Definition api_run (calls : list ApiCall) (w : Session * nat)
    : Session * nat :=
  fold_left api_step calls w.

(** [n] redirects in a row against one code. *)
Fixpoint redirects (db : Session) (short_code : string)
    (reqs : list (Faults * Z * Request))
    : list (outcome main.Response) * Session :=
  match reqs with
  | [] => ([], db)
  | (faults, now, request) :: reqs' =>
      let (r, db') :=
        main.redirect_url user_agents_parse faults now db short_code
          request in
      let (rs, db'') := redirects db' short_code reqs' in
      (r :: rs, db'')
  end.

End Runs.

(** The short codes of the store, in insertion order. *)
Definition codes (db : Session) : list string :=
  map URL.short_code (urls db).

(** * Vocabulary of the properties *)

(** The [i]-th candidate the loop draws when it starts at cursor [pos]. *)
Definition candidate (rand : nat -> nat) (pos i : nat) : string :=
  fst (URLService.generate_short_code rand 6 (pos + 6 * i)).

Definition not_found : exn := HTTPException 404 "Short URL not found".

(** The clicks stored for a code. *)
Definition clicks_of (db : Session) (code : string) : list Click.t :=
  List.filter (fun c => String.eqb (Click.short_code c) code) (clicks db).

(** Every stored click carries the code of some row: clicks are only
    written by redirects that found the row. *)
Definition clicks_known (db : Session) : Prop :=
  forall click, In click (clicks db) ->
                In (Click.short_code click) (codes db).

(** A redirect is recorded when nothing fails on its way: the request has a
    peer address, the parser accepts the user-agent header, and both commits
    go through. *)
Definition recorded (ua : string -> outcome (string * string))
    (r : Faults * Z * Request) : Prop :=
  fst (fst r) = no_faults /\
  is_Some (client_host (snd r)) /\
  exists browser, ua (default "" (header_user_agent (snd r))) = Returned browser.

(** The timestamps the in-memory store holds for a client. *)
Definition stored (self : RateLimiter.t) (client_ip : string) : list Z :=
  match RateLimiter.memory_store self with
  | Some store => default [] (store !! client_ip)
  | None => []
  end.

Definition rate_limited (max_requests : Z) : outcome unit :=
  Raised (HTTPException 429 (RateLimiter.detail_memory max_requests)).

(** The decision of the in-memory path on a list of [n] timestamps. *)
Definition verdict (max_requests : Z) (n : nat) : outcome unit :=
  if (max_requests <? Z.of_nat n)%Z then rate_limited max_requests
  else Returned tt.

(** How often a value occurs in a list, and where it occurs first. *)
Definition occurrences (v : string) (vals : list string) : nat :=
  length (filter (fun x => x = v) vals).

Fixpoint first_index (v : string) (vals : list string) : nat :=
  match vals with
  | [] => O
  | x :: vals' => if decide (x = v) then O else S (first_index v vals')
  end.

(** The distinct values of a list, in the order of their first
    occurrences. *)
Definition first_seen (vals : list string) : list string :=
  reverse (remove_dups (reverse vals)).

(** [a] comes before [b] in the sorted items: its count is larger, or the
    counts are equal and [a] came first in the input; [ord] gives the place
    of an item in the input. *)
Definition outranks_by (ord : string * nat -> nat) (a b : string * nat)
    : Prop :=
  (snd b < snd a)%nat \/ (snd a = snd b /\ (ord a < ord b)%nat).

(** [a] comes before [b] in a breakdown of [vals]: it is more frequent, or
    as frequent and first seen earlier. *)
Definition outranks (vals : list string) (a b : string * nat) : Prop :=
  (snd b < snd a)%nat \/
  (snd a = snd b /\ (first_index (fst a) vals < first_index (fst b) vals)%nat).

(** [top] is the top-five breakdown of the values [vals]. *)
Definition top_five (vals : list string) (top : list (string * nat)) : Prop :=
  (length top <= 5)%nat /\
  (forall v n, (v, n) ∈ top ->
     v ∈ vals /\ n = occurrences v vals /\ (1 <= n)%nat) /\
  NoDup (map fst top) /\
  (forall (i j : nat) a b, (i < j)%nat ->
     top !! i = Some a -> top !! j = Some b -> outranks vals a b) /\
  (forall w, w ∈ vals -> w ∉ map fst top ->
     length top = 5%nat /\
     forall a, a ∈ top -> outranks vals a (w, occurrences w vals)).

(** No counter commit fails in the calls. *)
Definition counters_commit (calls : list ApiCall) : Prop :=
  Forall (fun call =>
            match call with
            | Redirect faults _ _ _ => count_commit_fails faults = false
            | Shorten _ _ _ _ _ => True
            end) calls.

(** Every row's counter is between 0 and the number of clicks stored for
    its code. *)
Definition counters_bounded (db : Session) : Prop :=
  forall u, In u (urls db) ->
    (0 <= URL.click_count u
       <= Z.of_nat (length (clicks_of db (URL.short_code u))))%Z.

(** The characters of a string. *)
Fixpoint chars (s : string) : list ascii :=
  match s with
  | EmptyString => []
  | String c s' => c :: chars s'
  end.

(** The events of the last thirty days that fall on day [d]. *)
Definition recent_on (now : Z) (events : list Click.t) (d : Z)
    : list Click.t :=
  List.filter
    (fun c => (now - 30 * AnalyticsService.day <=? Click.clicked_at c)%Z
              && (Click.clicked_at c / AnalyticsService.day =? d)%Z)
    events.

(** One call of [check_rate_limit]: the reply the Redis pipeline would give,
    the time, the request and the two limits. *)
Record LimiterCall : Type := mkLimiterCall {
  call_reply : outcome (list Z);
  call_time : Z;
  call_request : Request;
  call_max_requests : Z;
  call_window_seconds : Z
}.

Definition with_reply (reply : outcome (list Z)) (c : LimiterCall)
    : LimiterCall :=
  mkLimiterCall reply (call_time c) (call_request c) (call_max_requests c)
    (call_window_seconds c).

(** A sequence of calls of [check_rate_limit] on one limiter. *)
Fixpoint limiter_run (self : RateLimiter.t) (calls : list LimiterCall)
    : list (outcome unit) * RateLimiter.t :=
  match calls with
  | [] => ([], self)
  | c :: calls' =>
      let (r, self') :=
        RateLimiter.check_rate_limit self (call_reply c) (call_time c)
          (call_request c) (call_max_requests c) (call_window_seconds c) in
      let (rs, self'') := limiter_run self' calls' in
      (r :: rs, self'')
  end.

(** * Example data *)

(** Concrete collaborators and data for the examples below. *)
Definition example_validators_url (s : string) : bool :=
  String.prefix "http://" s || String.prefix "https://" s.

Definition example_user_agents_parse (s : string) : outcome (string * string) :=
  if String.eqb s "" then Returned ("Other", "")
  else if String.prefix "Mozilla" s then Returned ("Firefox", "128.0")
  else Raised UserAgentError.

Definition example_request : Request :=
  mkRequest (Some "203.0.113.7") (Some "Mozilla/5.0") None.

(** A store holding one deactivated link. *)
Definition example_db : Session :=
  {| urls := [URL.mk 1 "https://old.example" "abc123" 0 4 false None];
     clicks := [] |}.

Definition example_calls : list ApiCall :=
  [Shorten 3 10 "https://a.example" (Some "abc123") example_request;
   Shorten 3 11 "https://b.example" None example_request;
   Redirect no_faults 12 "abc123" example_request;
   Shorten 3 13 "https://c.example" (Some "mine") example_request].

(** The store after one link with code ["aaaaaa"] was created. *)
Definition aaaaaa_db : Session :=
  {| urls := [URL.mk 1 "https://example.com" "aaaaaa" 0 0 true None];
     clicks := [] |}.

(** Draws that give ["aaaaaa"] first and ["ghijkl"] next. *)
Definition example_rand (n : nat) : nat := if (n <? 6)%nat then O else n.

(** A store with one live link. *)
Definition live_db : Session :=
  {| urls := [URL.mk 1 "https://python.org" "py" 0 0 true None];
     clicks := [] |}.

(** A deactivated link that was clicked twice before. *)
Definition retired_db : Session :=
  {| urls := [URL.mk 1 "https://old.example" "abc123" 0 2 false None];
     clicks :=
       [Click.mk 1 "abc123" 3 (Some "203.0.113.7") (Some "Firefox 128.0")
          None (Some "Unknown") (Some "Unknown");
        Click.mk 2 "abc123" 4 (Some "203.0.113.9") (Some "Firefox 128.0")
          None (Some "Unknown") (Some "Unknown")] |}.

Definition three_redirects : list (Faults * Z * Request) :=
  [(no_faults, 20, example_request);
   (no_faults, 21, mkRequest (Some "198.51.100.2") None (Some "https://t.co"));
   (no_faults, 22, example_request)].

(** The limiter as [__init__] leaves it when [redis.from_url] raises. *)
Definition local_limiter : RateLimiter.t :=
  RateLimiter.__init__ (Raised (ValueError "Redis URL must specify a scheme")).

(** * Properties *)

(** ** The registry *)

Lemma first_url_with_code_None db code :
  first_url_with_code db code = None <-> ~ In code (codes db).
Proof.
  unfold first_url_with_code, codes. induction (urls db) as [|u l IH]; simpl.
  - tauto.
  - destruct (String.eqb_spec (URL.short_code u) code) as [->|Hne].
    + split; [discriminate | intros H; exfalso; apply H; now left].
    + rewrite IH. tauto.
Qed.

Lemma first_url_with_code_Some db code u :
  first_url_with_code db code = Some u ->
  In u (urls db) /\ URL.short_code u = code.
Proof.
  unfold first_url_with_code. intros H. apply find_some in H as [Hin Heq].
  split; [assumption | now apply String.eqb_eq].
Qed.

Lemma add_url_Returned db now original_url short_code creator_ip u db' :
  add_url db now original_url short_code creator_ip = Returned (u, db') ->
  urls db' = (urls db ++ [u])%list /\ clicks db' = clicks db /\
  ~ In short_code (codes db) /\
  u = URL.mk (next_id (map URL.id (urls db))) original_url short_code now 0
        true creator_ip.
Proof.
  unfold add_url.
  destruct (existsb _ (urls db)) eqn:Hex; [discriminate|].
  intros [= <- <-]. simpl. repeat split; try reflexivity.
  intros Hin. unfold codes in Hin. apply in_map_iff in Hin as (v & Hv & Hin).
  assert (existsb (fun u => String.eqb (URL.short_code u) short_code) (urls db)
          = true) as Habs.
  { apply existsb_exists. exists v. split; [assumption | now apply String.eqb_eq]. }
  congruence.
Qed.

(** What a successful [create_short_url] does to the store: one row is
    appended, with a code no earlier row has. *)
Lemma create_short_url_Returned validators_url fuel rand now db pos
    original_url custom_code creator_ip u db' pos' :
  URLService.create_short_url validators_url fuel rand now db pos original_url
    custom_code creator_ip = Some (Returned (u, db', pos')) ->
  urls db' = (urls db ++ [u])%list /\ clicks db' = clicks db /\
  ~ In (URL.short_code u) (codes db) /\
  URL.original_url u = original_url /\ URL.click_count u = 0 /\
  URL.is_active u = true.
Proof.
  unfold URLService.create_short_url.
  assert (forall code p,
    ('(url_obj, db'0) ← add_url db now original_url code creator_ip;
       mret (url_obj, db'0, p)) = Returned (u, db', pos') ->
    urls db' = (urls db ++ [u])%list /\ clicks db' = clicks db /\
    ~ In (URL.short_code u) (codes db) /\
    URL.original_url u = original_url /\ URL.click_count u = 0 /\
    URL.is_active u = true) as Hins.
  { intros code p H.
    destruct (add_url db now original_url code creator_ip) as [[u0 d0]|e] eqn:Ha;
      simpl in H; [|discriminate].
    injection H as -> -> ->.
    apply add_url_Returned in Ha as (Hu & Hc & Hfresh & ->). simpl. tauto. }
  destruct (negb (validators_url original_url)); [discriminate|].
  destruct (truthy custom_code).
  - destruct (first_url_with_code db (default "" custom_code));
      [discriminate|].
    intros [= H]. eapply Hins, H.
  - destruct (URLService.generate_unique fuel rand db pos) as [[c p]|];
      simpl; [|discriminate].
    intros [= H]. eapply Hins, H.
Qed.

Lemma bump_first_codes code rows :
  map URL.short_code (URLService.bump_first code rows)
  = map URL.short_code rows.
Proof.
  induction rows as [|u rows IH]; simpl; [reflexivity|].
  destruct (String.eqb (URL.short_code u) code); simpl; congruence.
Qed.

Lemma increment_click_count_effect commit_fails db code r db' :
  URLService.increment_click_count commit_fails db code = (r, db') ->
  codes db' = codes db /\ clicks db' = clicks db.
Proof.
  unfold URLService.increment_click_count, codes.
  destruct (first_url_with_code db code), commit_fails;
    intros [= <- <-]; simpl; auto using bump_first_codes.
Qed.

(** [track_click] leaves the codes alone and appends at most one click,
    carrying the code it was called with. *)
Lemma track_click_effect ua faults now db code ip agent ref r db' :
  AnalyticsService.track_click ua faults now db code ip agent ref = (r, db') ->
  codes db' = codes db /\
  (clicks db' = clicks db \/
   exists click, clicks db' = (clicks db ++ [click])%list /\
                 Click.short_code click = code).
Proof.
  unfold AnalyticsService.track_click.
  destruct (ua agent) as [[family version]|e]; [|intros [= <- <-]; auto].
  destruct (click_commit_fails faults); [intros [= <- <-]; auto|].
  intros H. apply increment_click_count_effect in H as [Hc Hk]. simpl in *.
  split; [exact Hc|]. right. eexists. split; [exact Hk|reflexivity].
Qed.

Lemma get_url_by_code_Some db code u :
  URLService.get_url_by_code db code = Some u ->
  In u (urls db) /\ URL.short_code u = code /\ URL.is_active u = true.
Proof.
  unfold URLService.get_url_by_code. intros H.
  apply find_some in H as [Hin Hb]. apply andb_prop in Hb as [Hc Ha].
  apply String.eqb_eq in Hc. apply Bool.eqb_prop in Ha. auto.
Qed.

Lemma get_url_by_code_None db code :
  URLService.get_url_by_code db code = None <->
  (forall u, In u (urls db) -> URL.short_code u = code ->
             URL.is_active u = false).
Proof.
  unfold URLService.get_url_by_code. split.
  - intros H u Hin Hc. pose proof (find_none _ _ H u Hin) as Hb. simpl in Hb.
    apply String.eqb_eq in Hc. rewrite Hc in Hb. simpl in Hb.
    destruct (URL.is_active u); [discriminate|reflexivity].
  - intros H. destruct (List.find _ (urls db)) as [u|] eqn:Hf; [|reflexivity].
    apply find_some in Hf as [Hin Hb]. apply andb_prop in Hb as [Hc Ha].
    apply String.eqb_eq in Hc. apply Bool.eqb_prop in Ha.
    rewrite (H u Hin Hc) in Ha. discriminate.
Qed.

(** The store after a redirect is the store after its tracking step. *)
Lemma redirect_url_snd ua faults now db code request :
  snd (main.redirect_url ua faults now db code request)
  = match URLService.get_url_by_code db code with
    | None => db
    | Some _ =>
        match main.request_client_host request with
        | Returned ip =>
            snd (AnalyticsService.track_click ua faults now db code ip
                   (default "" (header_user_agent request))
                   (header_referer request))
        | Raised _ => db
        end
    end.
Proof.
  unfold main.redirect_url.
  destruct (URLService.get_url_by_code db code); [|reflexivity].
  cbv zeta.
  destruct (main.request_client_host request) as [ip|e];
    [destruct (AnalyticsService.commit_failed _ _ _ _ _)|]; reflexivity.
Qed.

Lemma redirect_url_effect ua faults now db code request :
  let db' := snd (main.redirect_url ua faults now db code request) in
  codes db' = codes db /\
  (clicks db' = clicks db \/
   exists click, clicks db' = (clicks db ++ [click])%list /\
                 Click.short_code click = code /\ In code (codes db)).
Proof.
  cbv zeta. rewrite redirect_url_snd.
  destruct (URLService.get_url_by_code db code) as [u|] eqn:Hu; [|auto].
  apply get_url_by_code_Some in Hu as (Hin & Hc & _).
  assert (In code (codes db)) as Hcode.
  { unfold codes. apply in_map_iff. eauto. }
  destruct (main.request_client_host request) as [ip|e]; [|auto].
  destruct (AnalyticsService.track_click _ _ _ _ _ _ _ _) as [r db'] eqn:Ht.
  apply track_click_effect in Ht as [Hcodes Hclicks].
  simpl. split; [assumption|].
  destruct Hclicks as [|(c & ? & ?)]; eauto.
Qed.

(** One call of a handler either leaves the codes as they are or appends a
    code that was not there. *)
Lemma api_step_codes validators_url ua rand w call :
  let w' := api_step validators_url ua rand w call in
  codes (fst w') = codes (fst w) \/
  exists code, codes (fst w') = (codes (fst w) ++ [code])%list /\
               ~ In code (codes (fst w)).
Proof.
  destruct call as [fuel now original_url custom request
                   |faults now code request]; simpl.
  - unfold main.create_short_url.
    destruct (main.request_client_host request) as [ip|e]; simpl; [|auto].
    destruct (URLService.create_short_url _ _ _ _ _ _ _ _ _)
      as [[[[u db'] pos']|e]|] eqn:Hc; simpl; auto.
    + apply create_short_url_Returned in Hc as (Hu & _ & Hfresh & _).
      right. exists (URL.short_code u). split; [|assumption].
      unfold codes. rewrite Hu, map_app. reflexivity.
    + destruct e; simpl; auto.
  - left. apply redirect_url_effect.
Qed.

Lemma api_step_NoDup validators_url ua rand w call :
  NoDup (codes (fst w)) ->
  NoDup (codes (fst (api_step validators_url ua rand w call))).
Proof.
  intros Hnd.
  destruct (api_step_codes validators_url ua rand w call)
    as [->|(code & -> & Hfresh)]; [assumption|].
  apply NoDup_app. repeat split; [assumption| |apply NoDup_singleton].
  intros x Hx Hx'. apply list_elem_of_singleton in Hx'. subst x.
  apply Hfresh. now apply list_elem_of_In.
Qed.

Lemma api_run_codes validators_url ua rand calls : forall w,
  NoDup (codes (fst w)) ->
  NoDup (codes (fst (api_run validators_url ua rand calls w))) /\
  codes (fst w) `prefix_of` codes (fst (api_run validators_url ua rand calls w)).
Proof.
  induction calls as [|call calls IH]; intros w Hnd; simpl.
  - split; [assumption|reflexivity].
  - destruct (IH _ (api_step_NoDup validators_url ua rand w call Hnd))
      as [Hnd' Hpre].
    split; [assumption|]. etransitivity; [|exact Hpre].
    destruct (api_step_codes validators_url ua rand w call)
      as [->|(code & -> & _)]; [reflexivity|apply prefix_app_r; reflexivity].
Qed.

(** C1. Short codes are unique, and stay so: from any store whose rows have
    pairwise distinct codes (active or not), after any sequence of calls of
    [POST /shorten] (with or without a custom code, interleaved with any
    redirects) every two rows of the store have distinct codes, whatever
    their [is_active] flags, and the codes that were there are still there,
    in place: no code is dropped or handed out a second time. *)
Theorem short_code_unique validators_url ua rand calls (w : Session * nat) :
  NoDup (codes (fst w)) ->
  let db' := fst (api_run validators_url ua rand calls w) in
  (forall (i j : nat) (u v : URL.t),
      urls db' !! i = Some u -> urls db' !! j = Some v -> i <> j ->
      URL.short_code u <> URL.short_code v) /\
  codes (fst w) `prefix_of` codes db'.
Proof.
  intros Hnd db'.
  destruct (api_run_codes validators_url ua rand calls w Hnd) as [Hnd' Hpre].
  split; [|exact Hpre].
  intros i j u v Hi Hj Hij Heq. apply Hij.
  apply (NoDup_lookup (codes db') i j (URL.short_code u)); [exact Hnd'| |].
  - unfold codes. rewrite list_lookup_fmap, Hi. reflexivity.
  - unfold codes. rewrite list_lookup_fmap, Hj, Heq. reflexivity.
Qed.

Lemma short_code_unique_witness :
  NoDup (codes example_db) /\
  codes (fst (api_run example_validators_url example_user_agents_parse
                (fun n => (7 * n)%nat) example_calls (example_db, O)))
  = ["abc123"; "ahovCJ"; "mine"] /\
  (forall (i j : nat) (u v : URL.t),
      urls (fst (api_run example_validators_url example_user_agents_parse
                   (fun n => (7 * n)%nat) example_calls (example_db, O)))
        !! i = Some u ->
      urls (fst (api_run example_validators_url example_user_agents_parse
                   (fun n => (7 * n)%nat) example_calls (example_db, O)))
        !! j = Some v ->
      i <> j -> URL.short_code u <> URL.short_code v).
Proof.
  assert (NoDup (codes example_db)) as Hnd.
  { apply NoDup_singleton. }
  split; [exact Hnd|]. split; [vm_compute; reflexivity|].
  exact (proj1 (short_code_unique example_validators_url
                  example_user_agents_parse (fun n => (7 * n)%nat)
                  example_calls (example_db, O) Hnd)).
Defined.

(** ** Scenarios of [tests/test_api.py] *)

(** [test_create_duplicate_custom_code]: the second request for a custom
    code is answered 400. *)
Example duplicate_custom_code :
  exists url_obj db pos,
    main.create_short_url example_validators_url 1 example_rand 1 empty_db 0
      "https://example.com" (Some "example") example_request
    = Some (Returned (main.URLResponse url_obj), db, pos) /\
    URL.short_code url_obj = "example" /\ URL.click_count url_obj = 0 /\
    main.create_short_url example_validators_url 1 example_rand 2 db pos
      "https://example2.com" (Some "example") example_request
    = Some (Raised (HTTPException 400 "Custom code already exists"), db, pos).
Proof. do 3 eexists. repeat split; reflexivity. Qed.

(** [test_redirect] and [test_get_analytics]: a created link redirects with
    302 to its target, and its clicks show in the summary. *)
Example create_then_redirect :
  exists url_obj db pos db',
    main.create_short_url example_validators_url 1 example_rand 1 empty_db 0
      "https://python.org" None example_request
    = Some (Returned (main.URLResponse url_obj), db, pos) /\
    main.redirect_url example_user_agents_parse no_faults 2 db
      (URL.short_code url_obj) example_request
    = (Returned (main.RedirectResponse "https://python.org" 302), db') /\
    exists a,
      main.get_analytics 3 db' (URL.short_code url_obj)
      = Returned (main.AnalyticsResponse a) /\
      AnalyticsService.total_clicks a = 1%nat /\
      AnalyticsService.browser_stats a = [("Firefox 128.0", 1%nat)].
Proof.
  do 4 eexists. split; [reflexivity|]. split; [reflexivity|].
  eexists. split; [vm_compute; reflexivity|]. split; reflexivity.
Qed.

(** [test_nonexistent_short_code] and [test_nonexistent_analytics] *)
Example nonexistent_short_code :
  main.redirect_url example_user_agents_parse no_faults 1 empty_db
    "nonexistent" example_request
  = (Raised (HTTPException 404 "Short URL not found"), empty_db) /\
  main.get_analytics 1 empty_db "nonexistent"
  = Raised (HTTPException 404 "Short URL not found").
Proof. split; reflexivity. Qed.

(** ** The generation loop *)

Lemma generate_short_code_pos rand n : forall pos,
  snd (URLService.generate_short_code rand n pos) = (pos + n)%nat.
Proof.
  induction n as [|n IH]; intros pos; simpl; [lia|].
  specialize (IH (S pos)).
  destruct (URLService.generate_short_code rand n (S pos)) as [rest pos'].
  simpl in *. lia.
Qed.

Lemma generate_short_code_length rand n : forall pos,
  String.length (fst (URLService.generate_short_code rand n pos)) = n.
Proof.
  induction n as [|n IH]; intros pos; simpl; [reflexivity|].
  specialize (IH (S pos)).
  destruct (URLService.generate_short_code rand n (S pos)) as [rest pos'].
  simpl in *. congruence.
Qed.

(** One iteration of the loop. *)
Lemma generate_unique_S fuel rand db pos :
  URLService.generate_unique (S fuel) rand db pos
  = match first_url_with_code db (candidate rand pos 0) with
    | None => Some (candidate rand pos 0, (pos + 6)%nat)
    | Some _ => URLService.generate_unique fuel rand db (pos + 6)%nat
    end.
Proof.
  unfold candidate. rewrite Nat.mul_0_r, Nat.add_0_r.
  pose proof (generate_short_code_pos rand 6 pos) as Hpos.
  change (URLService.generate_unique (S fuel) rand db pos) with
    (let (short_code, pos') := URLService.generate_short_code rand 6 pos in
     match first_url_with_code db short_code with
     | None => Some (short_code, pos')
     | Some _ => URLService.generate_unique fuel rand db pos'
     end).
  destruct (URLService.generate_short_code rand 6 pos) as [c p].
  cbn [fst snd] in *. subst p. reflexivity.
Qed.

Lemma candidate_shift rand pos i :
  candidate rand (pos + 6) i = candidate rand pos (S i).
Proof. unfold candidate. f_equal. f_equal. lia. Qed.

(** The loop runs until the first candidate that is not in the store: with
    [k] taken candidates in front of it, [k + 1] iterations are needed and
    are enough. *)
Lemma generate_unique_first_free rand db k : forall pos fuel,
  (forall i, (i < k)%nat -> In (candidate rand pos i) (codes db)) ->
  ~ In (candidate rand pos k) (codes db) ->
  URLService.generate_unique fuel rand db pos
  = if decide (k < fuel)%nat
    then Some (candidate rand pos k, (pos + 6 * S k)%nat) else None.
Proof.
  induction k as [|k IH]; intros pos fuel Htaken Hfree.
  - destruct fuel as [|fuel]; [reflexivity|].
    rewrite generate_unique_S.
    apply first_url_with_code_None in Hfree. rewrite Hfree.
    destruct (decide (0 < S fuel)%nat); [|lia]. do 2 f_equal.
  - destruct fuel as [|fuel]; [reflexivity|].
    rewrite generate_unique_S.
    destruct (first_url_with_code db (candidate rand pos 0)) as [u|] eqn:Hf.
    2:{ apply first_url_with_code_None in Hf.
        exfalso. apply Hf, Htaken. lia. }
    rewrite (IH (pos + 6)%nat fuel).
    + rewrite candidate_shift.
      destruct (decide (k < fuel)%nat), (decide (S k < S fuel)%nat);
        try lia; [|reflexivity].
      do 2 f_equal. lia.
    + intros i Hi. rewrite candidate_shift. apply Htaken. lia.
    + rewrite candidate_shift. exact Hfree.
Qed.

(** While every candidate is taken the loop does not end, whatever the
    number of iterations allowed. *)
Lemma generate_unique_all_taken rand db fuel : forall pos,
  (forall i, In (candidate rand pos i) (codes db)) ->
  URLService.generate_unique fuel rand db pos = None.
Proof.
  induction fuel as [|fuel IH]; intros pos Htaken; [reflexivity|].
  rewrite generate_unique_S.
  destruct (first_url_with_code db (candidate rand pos 0)) as [u|] eqn:Hf.
  2:{ apply first_url_with_code_None in Hf. exfalso. apply Hf, Htaken. }
  apply IH. intros i. rewrite candidate_shift. apply Htaken.
Qed.

Lemma add_url_fresh db now original_url short_code creator_ip :
  ~ In short_code (codes db) ->
  exists u,
    add_url db now original_url short_code creator_ip
    = Returned (u, {| urls := urls db ++ [u]; clicks := clicks db |}) /\
    URL.short_code u = short_code.
Proof.
  intros Hfree. unfold add_url.
  destruct (existsb _ (urls db)) eqn:Hex.
  - apply existsb_exists in Hex as (v & Hin & Hv). apply String.eqb_eq in Hv.
    exfalso. apply Hfree. unfold codes. apply in_map_iff. eauto.
  - eexists. split; reflexivity.
Qed.

(** C6 (as the code has it). Without a custom code, [create_short_url]
    draws candidates until one is not in the store, and inserts that one:
    when the first [k] candidates are taken and the next is free, the loop
    makes exactly [k + 1] attempts (it is still running after [k]
    iterations, and returns at iteration [k + 1]).  Nothing caps the
    attempts, and no error is raised for running out of them: while every
    candidate is taken, the call neither returns nor raises, however many
    iterations it is given. *)
Theorem create_short_url_attempts validators_url rand now db pos original_url
    creator_ip :
  validators_url original_url = true ->
  let create fuel :=
    URLService.create_short_url validators_url fuel rand now db pos
      original_url None creator_ip in
  ((forall i, In (candidate rand pos i) (codes db)) ->
   forall fuel, create fuel = None) /\
  (forall k,
     (forall i, (i < k)%nat -> In (candidate rand pos i) (codes db)) ->
     ~ In (candidate rand pos k) (codes db) ->
     forall fuel,
       ((fuel <= k)%nat -> create fuel = None) /\
       ((k < fuel)%nat ->
        exists u db',
          create fuel = Some (Returned (u, db', (pos + 6 * S k)%nat)) /\
          URL.short_code u = candidate rand pos k /\
          urls db' = (urls db ++ [u])%list)).
Proof.
  intros Hvalid create. subst create. unfold URLService.create_short_url.
  rewrite Hvalid. simpl negb. cbv iota. simpl truthy. cbv iota.
  split.
  - intros Htaken fuel.
    rewrite (generate_unique_all_taken rand db fuel pos Htaken). reflexivity.
  - intros k Htaken Hfree fuel.
    rewrite (generate_unique_first_free rand db k pos fuel Htaken Hfree).
    split; intros Hk; destruct (decide (k < fuel)%nat); try lia;
      [reflexivity|].
    destruct (add_url_fresh db now original_url (candidate rand pos k)
                creator_ip Hfree) as (u & Hadd & Hcode).
    exists u, {| urls := urls db ++ [u]; clicks := clicks db |}.
    simpl. rewrite Hadd. simpl. auto.
Qed.

Lemma create_short_url_attempts_witness :
  example_validators_url "https://example.org" = true /\
  forall fuel,
    ((fuel <= 1)%nat ->
     URLService.create_short_url example_validators_url fuel example_rand 5
       aaaaaa_db 0 "https://example.org" None None = None) /\
    ((1 < fuel)%nat ->
     exists u db',
       URLService.create_short_url example_validators_url fuel example_rand 5
         aaaaaa_db 0 "https://example.org" None None
       = Some (Returned (u, db', 12%nat)) /\
       URL.short_code u = "ghijkl" /\
       urls db' = (urls aaaaaa_db ++ [u])%list).
Proof.
  split; [reflexivity|].
  refine (proj2 (create_short_url_attempts example_validators_url example_rand
                   5 aaaaaa_db 0 "https://example.org" None eq_refl) 1%nat _ _).
  - intros i Hi. destruct i as [|i]; [|lia]. vm_compute. left. reflexivity.
  - vm_compute. intros [H|[]]. discriminate H.
Defined.

(** Against C6 as stated: with draws that keep producing the code of an
    existing link, the first call creates the link and the second call is
    still in its loop after any number of iterations; no cap stops it and no
    error comes out. *)
Lemma create_short_url_unbounded :
  URLService.create_short_url example_validators_url 1 (fun _ => O) 0
    empty_db 0 "https://example.com" None None
  = Some (Returned (URL.mk 1 "https://example.com" "aaaaaa" 0 0 true None,
                    aaaaaa_db, 6%nat)) /\
  forall fuel,
    URLService.create_short_url example_validators_url fuel (fun _ => O) 1
      aaaaaa_db 6 "https://example.org" None None = None.
Proof.
  split; [vm_compute; reflexivity|].
  intros fuel. unfold URLService.create_short_url.
  change (example_validators_url "https://example.org") with true.
  cbv beta iota delta [negb truthy].
  rewrite generate_unique_all_taken; [reflexivity|].
  intros i. left. reflexivity.
Qed.

(** ** Lookup and redirect *)

(** C3. [get_url_by_code] returns a row exactly when the store has a row
    with that code whose [is_active] flag is true, and the row it returns is
    such a row.  When the code is absent, or carried only by deactivated
    rows, the lookup returns nothing and the redirect raises the same 404,
    with the same detail, leaving the store as it was: the two cases look
    the same to the caller. *)
Theorem get_url_by_code_active_only ua faults now request db code :
  (forall u, URLService.get_url_by_code db code = Some u ->
             In u (urls db) /\ URL.short_code u = code /\
             URL.is_active u = true) /\
  ((exists u, URLService.get_url_by_code db code = Some u) <->
   (exists u, In u (urls db) /\ URL.short_code u = code /\
              URL.is_active u = true)) /\
  ((~ In code (codes db) \/
    (forall u, In u (urls db) -> URL.short_code u = code ->
               URL.is_active u = false)) ->
   URLService.get_url_by_code db code = None /\
   main.redirect_url ua faults now db code request = (Raised not_found, db)).
Proof.
  split; [intros u; apply get_url_by_code_Some|]. split.
  - split.
    + intros [u Hu]. exists u. now apply get_url_by_code_Some.
    + intros (u & Hin & Hc & Ha).
      destruct (URLService.get_url_by_code db code) as [v|] eqn:Hv; [eauto|].
      rewrite get_url_by_code_None in Hv. rewrite (Hv u Hin Hc) in Ha.
      discriminate.
  - intros Hcase.
    assert (URLService.get_url_by_code db code = None) as Hnone.
    { apply get_url_by_code_None. destruct Hcase as [Habs|Hin]; [|exact Hin].
      intros u Hu Hc. exfalso. apply Habs. unfold codes.
      apply in_map_iff. eauto. }
    split; [exact Hnone|]. unfold main.redirect_url. rewrite Hnone.
    reflexivity.
Qed.

Lemma get_url_by_code_first_Some db code u :
  URLService.get_url_by_code db code = Some u ->
  exists v, first_url_with_code db code = Some v.
Proof.
  intros H. apply get_url_by_code_Some in H as (Hin & Hc & _).
  destruct (first_url_with_code db code) as [v|] eqn:Hv; [eauto|].
  apply first_url_with_code_None in Hv. exfalso. apply Hv.
  unfold codes. rewrite <- Hc. now apply in_map.
Qed.

(** When the parser returns and the row is there, [commit_failed] says
    whether [track_click] raised the store's error. *)
Lemma commit_failed_track_click ua faults now db code ip agent referer browser v :
  ua agent = Returned browser -> first_url_with_code db code = Some v ->
  (AnalyticsService.commit_failed ua faults db code agent = true <->
   fst (AnalyticsService.track_click ua faults now db code ip agent referer)
   = Raised OperationalError) /\
  (AnalyticsService.commit_failed ua faults db code agent = false <->
   fst (AnalyticsService.track_click ua faults now db code ip agent referer)
   = Returned tt).
Proof.
  intros Hua Hv.
  unfold AnalyticsService.commit_failed, AnalyticsService.track_click.
  rewrite Hua. destruct browser as [family version].
  unfold URLService.increment_click_count.
  change (first_url_with_code (add_click db now code (Some ip)
            (Some (family +:+ " " +:+ version)) referer
            (Some "Unknown") (Some "Unknown")) code)
    with (first_url_with_code db code).
  rewrite Hv. rewrite bool_decide_eq_true_2 by eauto.
  destruct (click_commit_fails faults), (count_commit_fails faults); simpl;
    split; split; (reflexivity || discriminate).
Qed.

(** C4 (against the code). A redirect whose lookup succeeds answers 302
    with the original URL when the recording step fails before it reaches
    the store (no peer address, an exception of the user-agent parser) or
    does not fail.  When a commit of the recording step is rejected by the
    store, the exception of [track_click] is swallowed by the [except], as
    the comment there intends, but the handler then reads
    [url_obj.original_url] from the session that the failed commit left in
    need of a rollback: that read raises, and the redirect is answered with
    an error instead of the 302. *)
Theorem redirect_url_tracking_failure ua faults now db code request u :
  (URLService.get_url_by_code db code = Some u ->
   client_host request = None \/
   (exists e, ua (default "" (header_user_agent request)) = Raised e) \/
   (click_commit_fails faults = false /\ count_commit_fails faults = false) ->
   fst (main.redirect_url ua faults now db code request)
   = Returned (main.RedirectResponse (URL.original_url u) 302)) /\
  (URLService.get_url_by_code db code = Some u ->
   forall ip browser,
     client_host request = Some ip ->
     ua (default "" (header_user_agent request)) = Returned browser ->
     click_commit_fails faults = true \/ count_commit_fails faults = true ->
     fst (AnalyticsService.track_click ua faults now db code ip
            (default "" (header_user_agent request)) (header_referer request))
     = Raised OperationalError /\
     fst (main.redirect_url ua faults now db code request)
     = Raised PendingRollbackError).
Proof.
  split.
  - intros Hu Hcase. unfold main.redirect_url. rewrite Hu. cbv zeta.
    unfold main.request_client_host, AnalyticsService.commit_failed.
    destruct Hcase as [Hc|[[e He]|[Hf1 Hf2]]].
    + rewrite Hc. reflexivity.
    + destruct (client_host request); [|reflexivity]. rewrite He. reflexivity.
    + destruct (client_host request); [|reflexivity].
      destruct (ua _); [|reflexivity]. rewrite Hf1, Hf2. reflexivity.
  - intros Hu ip browser Hip Hua Hfail.
    destruct (get_url_by_code_first_Some db code u Hu) as [v Hv].
    destruct (commit_failed_track_click ua faults now db code ip
                (default "" (header_user_agent request))
                (header_referer request) browser v Hua Hv) as [[Hfailed _] _].
    assert (AnalyticsService.commit_failed ua faults db code
              (default "" (header_user_agent request)) = true) as Hcf.
    { unfold AnalyticsService.commit_failed. rewrite Hua, Hv.
      rewrite bool_decide_eq_true_2 by eauto.
      destruct Hfail as [->| ->]; [reflexivity|].
      destruct (click_commit_fails faults); reflexivity. }
    split; [now apply Hfailed|].
    unfold main.redirect_url. rewrite Hu. cbv zeta.
    unfold main.request_client_host. rewrite Hip, Hcf. reflexivity.
Qed.

Example redirect_url_click_commit_rejected :
  fst (main.redirect_url example_user_agents_parse (mkFaults true false) 7
         live_db "py" example_request)
  = Raised PendingRollbackError /\
  fst (main.redirect_url example_user_agents_parse (mkFaults true true) 7
         live_db "py" (mkRequest (Some "203.0.113.7") (Some "curl/8.5") None))
  = Returned (main.RedirectResponse "https://python.org" 302).
Proof. split; reflexivity. Qed.

(** ** Analytics behind the handler *)

Lemma get_analytics_total_clicks now db code :
  AnalyticsService.total_clicks (AnalyticsService.get_analytics now db code)
  = length (clicks_of db code).
Proof.
  unfold AnalyticsService.get_analytics, clicks_of.
  destruct (List.filter _ (clicks db)); reflexivity.
Qed.

(** C10. [GET /api/analytics/{short_code}] raises 404 whenever no active
    row carries the code: when the code is absent, and also when its row is
    deactivated.  The answer does not look at the clicks: the events stored
    for a deactivated link, which the aggregation itself would still count,
    cannot be read through the handler. *)
Theorem get_analytics_inactive_not_found now db code :
  (forall u, In u (urls db) -> URL.short_code u = code ->
             URL.is_active u = false) ->
  main.get_analytics now db code = Raised not_found /\
  AnalyticsService.total_clicks (AnalyticsService.get_analytics now db code)
  = length (clicks_of db code).
Proof.
  intros Hinactive. split; [|apply get_analytics_total_clicks].
  unfold main.get_analytics.
  rewrite (proj2 (get_url_by_code_None db code) Hinactive). reflexivity.
Qed.

Lemma get_analytics_inactive_not_found_witness :
  (forall u, In u (urls retired_db) -> URL.short_code u = "abc123" ->
             URL.is_active u = false) /\
  length (clicks_of retired_db "abc123") = 2%nat /\
  main.get_analytics 5 retired_db "abc123" = Raised not_found.
Proof.
  assert (forall u, In u (urls retired_db) -> URL.short_code u = "abc123" ->
                    URL.is_active u = false) as H.
  { intros u [<-|[]] _. reflexivity. }
  split; [exact H|]. split; [reflexivity|].
  exact (proj1 (get_analytics_inactive_not_found 5 retired_db "abc123" H)).
Defined.

(** ** Click counting *)

Lemma api_step_clicks_known validators_url ua rand w call :
  clicks_known (fst w) ->
  clicks_known (fst (api_step validators_url ua rand w call)).
Proof.
  intros Hk.
  destruct call as [fuel now original_url custom request
                   |faults now code request]; simpl.
  - unfold main.create_short_url.
    destruct (main.request_client_host request) as [ip|e]; simpl; [|exact Hk].
    destruct (URLService.create_short_url _ _ _ _ _ _ _ _ _)
      as [[[[u db'] pos']|e]|] eqn:Hc; simpl; try exact Hk.
    + apply create_short_url_Returned in Hc as (Hu & Hcl & _).
      intros click Hin. rewrite Hcl in Hin. unfold codes. rewrite Hu, map_app.
      apply in_or_app. left. now apply Hk.
    + destruct e; exact Hk.
  - destruct (redirect_url_effect ua faults now (fst w) code request)
      as [Hcodes Hclicks].
    intros click Hin. rewrite Hcodes.
    destruct Hclicks as [Heq|(c & Heq & Hc & Hcode)]; rewrite Heq in Hin.
    + now apply Hk.
    + apply in_app_or in Hin as [Hin|[<-|[]]]; [now apply Hk|].
      rewrite Hc. exact Hcode.
Qed.

Lemma api_run_clicks_known validators_url ua rand calls : forall w,
  clicks_known (fst w) ->
  clicks_known (fst (api_run validators_url ua rand calls w)).
Proof.
  induction calls as [|call calls IH]; intros w Hk; simpl; [exact Hk|].
  apply IH, api_step_clicks_known, Hk.
Qed.

Lemma clicks_of_unknown db code :
  clicks_known db -> ~ In code (codes db) -> clicks_of db code = [].
Proof.
  intros Hk Hfree. unfold clicks_of.
  destruct (List.filter _ (clicks db)) as [|c l] eqn:Hf; [reflexivity|].
  assert (In c (List.filter
                  (fun c => String.eqb (Click.short_code c) code) (clicks db)))
    as Hin by (rewrite Hf; now left).
  apply filter_In in Hin as [Hin Hc]. apply String.eqb_eq in Hc.
  exfalso. apply Hfree. rewrite <- Hc. now apply Hk.
Qed.

Lemma first_url_with_code_app_new db u rows :
  urls db = (rows ++ [u])%list ->
  ~ In (URL.short_code u) (map URL.short_code rows) ->
  first_url_with_code db (URL.short_code u) = Some u.
Proof.
  unfold first_url_with_code. intros -> Hfree.
  induction rows as [|v rows IH]; simpl.
  - now rewrite String.eqb_refl.
  - simpl in Hfree.
    destruct (String.eqb_spec (URL.short_code v) (URL.short_code u)) as [E|_].
    + exfalso. apply Hfree. now left.
    + apply IH. intros H. apply Hfree. now right.
Qed.

(** The first row with a code, when active, is what the lookup returns. *)
Lemma get_url_by_code_first db code u :
  first_url_with_code db code = Some u -> URL.is_active u = true ->
  URLService.get_url_by_code db code = Some u.
Proof.
  unfold first_url_with_code, URLService.get_url_by_code.
  induction (urls db) as [|v rows IH]; simpl; [discriminate|].
  destruct (String.eqb (URL.short_code v) code); simpl.
  - intros [= ->] ->. reflexivity.
  - exact IH.
Qed.

Lemma bump_first_first code rows u :
  List.find (fun v => String.eqb (URL.short_code v) code) rows = Some u ->
  List.find (fun v => String.eqb (URL.short_code v) code)
            (URLService.bump_first code rows) = Some (URLService.bump u).
Proof.
  induction rows as [|v rows IH]; simpl; [discriminate|].
  destruct (String.eqb (URL.short_code v) code) eqn:E; simpl; rewrite E.
  - intros [= ->]. reflexivity.
  - exact IH.
Qed.

Lemma redirect_url_recorded ua faults now request db code u :
  recorded ua (faults, now, request) ->
  first_url_with_code db code = Some u -> URL.is_active u = true ->
  exists db',
    main.redirect_url ua faults now db code request
    = (Returned (main.RedirectResponse (URL.original_url u) 302), db') /\
    first_url_with_code db' code = Some (URLService.bump u) /\
    length (clicks_of db' code) = S (length (clicks_of db code)) /\
    codes db' = codes db.
Proof.
  intros (Hf & [ip Hip] & [family version] & Hua) Hfirst Hact.
  simpl in Hf, Hip, Hua. subst faults.
  unfold main.redirect_url.
  rewrite (get_url_by_code_first db code u Hfirst Hact).
  unfold main.request_client_host. rewrite Hip.
  unfold AnalyticsService.commit_failed, AnalyticsService.track_click.
  rewrite Hua. simpl.
  unfold URLService.increment_click_count.
  change (first_url_with_code (add_click db now code (Some ip)
            (Some (family +:+ " " +:+ version)) (header_referer request)
            (Some "Unknown") (Some "Unknown")) code)
    with (first_url_with_code db code).
  rewrite Hfirst. simpl. eexists. split; [reflexivity|].
  unfold first_url_with_code, clicks_of, codes. simpl.
  split; [now apply bump_first_first|]. split.
  - rewrite List.filter_app, length_app. simpl.
    rewrite String.eqb_refl. simpl. lia.
  - apply bump_first_codes.
Qed.

Lemma redirects_recorded ua code original_url reqs : forall db u,
  Forall (recorded ua) reqs ->
  first_url_with_code db code = Some u -> URL.is_active u = true ->
  URL.original_url u = original_url ->
  let out := redirects ua db code reqs in
  Forall (fun r => r = Returned (main.RedirectResponse original_url 302))
         (fst out) /\
  length (fst out) = length reqs /\
  (exists u', first_url_with_code (snd out) code = Some u' /\
              URL.is_active u' = true /\
              URL.click_count u'
              = URL.click_count u + Z.of_nat (length reqs)) /\
  length (clicks_of (snd out) code)
  = (length (clicks_of db code) + length reqs)%nat /\
  codes (snd out) = codes db.
Proof.
  induction reqs as [|[[faults now] request] reqs IH];
    intros db u Hrec Hfirst Hact Hurl; simpl.
  - repeat split; [constructor| |lia].
    exists u. repeat split; [assumption..|lia].
  - apply Forall_cons in Hrec as [Hr Hrec].
    destruct (redirect_url_recorded ua faults now request db code u Hr Hfirst
                Hact) as (db' & Hred & Hfirst' & Hlen & Hcodes).
    rewrite Hred.
    specialize (IH db' (URLService.bump u) Hrec Hfirst' Hact Hurl).
    destruct (redirects ua db' code reqs) as [rs db''].
    simpl in *. destruct IH as (Hall & Hl & (u' & Hu' & Ha' & Hcount) & Hc & Hcs).
    split; [constructor; [now rewrite Hurl|exact Hall]|].
    split; [lia|]. split; [|split; [lia|congruence]].
    exists u'. repeat split; [assumption..|lia].
Qed.

Lemma unique_row db code u v :
  NoDup (codes db) -> first_url_with_code db code = Some u ->
  In v (urls db) -> URL.short_code v = code -> v = u.
Proof.
  unfold codes, first_url_with_code.
  induction (urls db) as [|a rows IH]; simpl; [discriminate|].
  intros Hnd Hfirst Hin Hv. apply NoDup_cons in Hnd as [Ha Hnd].
  destruct (String.eqb_spec (URL.short_code a) code) as [Ea|Ea].
  - injection Hfirst as <-. destruct Hin as [->|Hin]; [reflexivity|].
    exfalso. apply Ha. apply list_elem_of_In. rewrite Ea, <- Hv.
    apply in_map_iff. eauto.
  - destruct Hin as [->|Hin]; [contradiction|]. now apply IH.
Qed.

(** C2. Take any store reached by calls of the handlers from the empty
    store, create a link in it, and send [N] redirects against its code,
    each of them recorded.  Then every redirect answers 302 with the
    original URL, the row of the code (there is exactly one) has
    [click_count = N], and the analytics summary of the code reports
    [total_clicks = N], at the service and through its handler. *)
Theorem redirects_counted validators_url ua rand calls fuel now0 original_url
    custom_code creator_ip u db1 pos1 reqs :
  let w := api_run validators_url ua rand calls (empty_db, O) in
  URLService.create_short_url validators_url fuel rand now0 (fst w) (snd w)
    original_url custom_code creator_ip = Some (Returned (u, db1, pos1)) ->
  Forall (recorded ua) reqs ->
  let code := URL.short_code u in
  let out := redirects ua db1 code reqs in
  let N := length reqs in
  Forall (fun r => r = Returned (main.RedirectResponse original_url 302))
         (fst out) /\
  length (fst out) = N /\
  (exists u', URLService.get_url_by_code (snd out) code = Some u' /\
              URL.click_count u' = Z.of_nat N) /\
  (forall v, In v (urls (snd out)) -> URL.short_code v = code ->
             URL.click_count v = Z.of_nat N) /\
  (forall now,
     AnalyticsService.total_clicks
       (AnalyticsService.get_analytics now (snd out) code) = N /\
     exists a, main.get_analytics now (snd out) code
               = Returned (main.AnalyticsResponse a) /\
               AnalyticsService.total_clicks a = N).
Proof.
  intros w Hcreate Hrec code out N.
  assert (NoDup (codes empty_db)) as Hnd0 by constructor.
  assert (clicks_known empty_db) as Hk0 by (intros c []).
  destruct (api_run_codes validators_url ua rand calls (empty_db, O) Hnd0)
    as [Hnd _].
  pose proof (api_run_clicks_known validators_url ua rand calls (empty_db, O)
                Hk0) as Hk.
  fold w in Hnd, Hk.
  apply create_short_url_Returned in Hcreate
    as (Hurls & Hclicks & Hfree & Hurl & Hcount & Hact).
  assert (first_url_with_code db1 code = Some u) as Hfirst.
  { eapply first_url_with_code_app_new; [exact Hurls|exact Hfree]. }
  assert (clicks_of db1 code = []) as Hnone.
  { transitivity (clicks_of (fst w) code).
    - unfold clicks_of. now rewrite Hclicks.
    - now apply clicks_of_unknown. }
  assert (NoDup (codes db1)) as Hnd1.
  { unfold codes. rewrite Hurls, map_app. apply NoDup_app.
    repeat split; [exact Hnd| |apply NoDup_singleton].
    intros x Hx Hx'. apply list_elem_of_singleton in Hx'. subst x.
    apply Hfree. now apply list_elem_of_In. }
  destruct (redirects_recorded ua code original_url reqs db1 u Hrec Hfirst
              Hact Hurl)
    as (Hall & Hlen & (u' & Hu' & Ha' & Hc') & Hcl & Hcodes).
  fold out in Hall, Hlen, Hu', Hcl, Hcodes. fold N in Hlen, Hc', Hcl.
  rewrite Hcount in Hc'. rewrite Hnone in Hcl. simpl in Hcl, Hc'.
  assert (URLService.get_url_by_code (snd out) code = Some u') as Hget
    by now apply get_url_by_code_first.
  split; [exact Hall|]. split; [exact Hlen|]. split; [eauto|]. split.
  - intros v Hv Hvc.
    rewrite (unique_row (snd out) code u' v); [exact Hc'| |assumption..].
    now rewrite Hcodes.
  - intros now. rewrite get_analytics_total_clicks. split; [exact Hcl|].
    unfold main.get_analytics. rewrite Hget. eexists. split; [reflexivity|].
    now rewrite get_analytics_total_clicks.
Qed.

Lemma redirects_counted_witness :
  Forall (recorded example_user_agents_parse) three_redirects /\
  exists u db1,
    URLService.create_short_url example_validators_url 2 example_rand 14
      (fst (api_run example_validators_url example_user_agents_parse
              example_rand example_calls (empty_db, O)))
      (snd (api_run example_validators_url example_user_agents_parse
              example_rand example_calls (empty_db, O)))
      "https://stackoverflow.com" None (Some "203.0.113.7")
    = Some (Returned (u, db1, 12%nat)) /\
    URL.short_code u = "ghijkl" /\
    (exists u',
       URLService.get_url_by_code
         (snd (redirects example_user_agents_parse db1 "ghijkl"
                 three_redirects)) "ghijkl" = Some u' /\
       URL.click_count u' = 3) /\
    AnalyticsService.total_clicks
      (AnalyticsService.get_analytics 23
         (snd (redirects example_user_agents_parse db1 "ghijkl"
                 three_redirects)) "ghijkl") = 3%nat.
Proof.
  assert (Forall (recorded example_user_agents_parse) three_redirects) as Hrec.
  { repeat constructor; simpl; eauto. }
  split; [exact Hrec|].
  eexists. eexists.
  assert (forall u db1 (E :
    URLService.create_short_url example_validators_url 2 example_rand 14
      (fst (api_run example_validators_url example_user_agents_parse
              example_rand example_calls (empty_db, O)))
      (snd (api_run example_validators_url example_user_agents_parse
              example_rand example_calls (empty_db, O)))
      "https://stackoverflow.com" None (Some "203.0.113.7")
    = Some (Returned (u, db1, 12%nat))) (Ec : URL.short_code u = "ghijkl"),
    (exists u',
       URLService.get_url_by_code
         (snd (redirects example_user_agents_parse db1 "ghijkl"
                 three_redirects)) "ghijkl" = Some u' /\
       URL.click_count u' = 3) /\
    AnalyticsService.total_clicks
      (AnalyticsService.get_analytics 23
         (snd (redirects example_user_agents_parse db1 "ghijkl"
                 three_redirects)) "ghijkl") = 3%nat) as K.
  { intros u db1 E Ec.
    pose proof (redirects_counted example_validators_url
                  example_user_agents_parse example_rand example_calls 2 14
                  "https://stackoverflow.com" None (Some "203.0.113.7")
                  u db1 12%nat three_redirects E Hrec) as H.
    cbv zeta in H. rewrite Ec in H.
    destruct H as (_ & _ & Hrow & _ & Han).
    split; [exact Hrow|exact (proj1 (Han 23))]. }
  split; [vm_compute; reflexivity|]. split; [reflexivity|].
  eapply K; [vm_compute; reflexivity|reflexivity].
Defined.

(** ** The rate limiter *)

Lemma verdict_rate_limited m n :
  verdict m n = rate_limited m <-> (m < Z.of_nat n)%Z.
Proof.
  unfold verdict, rate_limited. destruct (Z.ltb_spec m (Z.of_nat n)).
  - tauto.
  - split; [discriminate|lia].
Qed.

Lemma verdict_Returned m n : verdict m n = Returned tt <-> (Z.of_nat n <= m)%Z.
Proof.
  unfold verdict, rate_limited. destruct (Z.ltb_spec m (Z.of_nat n)).
  - split; [discriminate|lia].
  - tauto.
Qed.

Lemma filter_all {A} (P : A -> Prop) `{forall x, Decision (P x)} (l : list A) :
  (forall x, x ∈ l -> P x) -> filter P l = l.
Proof.
  induction l as [|a l IH]; intros Hall; [reflexivity|].
  rewrite filter_cons. destruct (decide (P a)) as [_|Hn].
  - f_equal. apply IH. intros x Hx. apply Hall. now right.
  - exfalso. apply Hn, Hall. now left.
Qed.

Lemma filter_none {A} (P : A -> Prop) `{forall x, Decision (P x)} (l : list A) :
  (forall x, x ∈ l -> ~ P x) -> filter P l = [].
Proof.
  induction l as [|a l IH]; intros Hall; [reflexivity|].
  rewrite filter_cons. destruct (decide (P a)) as [Hp|_].
  - exfalso. apply (Hall a); [now left|exact Hp].
  - apply IH. intros x Hx. apply Hall. now right.
Qed.

(** One call of the in-memory check: prune, append, then decide on the
    length.  The append does not depend on the decision. *)
Lemma check_memory_step self store client_ip t window_start m :
  RateLimiter.memory_store self = Some store ->
  let requests :=
    (filter (fun r => (window_start < r)%Z) (default [] (store !! client_ip))
       ++ [t])%list in
  RateLimiter._check_memory_rate_limit self client_ip t window_start m
  = (verdict m (length requests),
     RateLimiter.mk (RateLimiter.redis_client self)
       (RateLimiter.redis_available self)
       (Some (<[client_ip := requests]> store))).
Proof.
  intros Hs. unfold RateLimiter._check_memory_rate_limit, verdict, rate_limited.
  rewrite Hs. cbv zeta. destruct (_ <? _)%Z; reflexivity.
Qed.

Lemma check_memory_stored self client_ip t window_start m :
  is_Some (RateLimiter.memory_store self) ->
  let out :=
    RateLimiter._check_memory_rate_limit self client_ip t window_start m in
  let requests :=
    (filter (fun r => (window_start < r)%Z) (stored self client_ip)
       ++ [t])%list in
  fst out = verdict m (length requests) /\
  stored (snd out) client_ip = requests /\
  is_Some (RateLimiter.memory_store (snd out)).
Proof.
  intros [store Hs]. cbv zeta.
  rewrite (check_memory_step self store client_ip t window_start m Hs).
  unfold stored. rewrite Hs. simpl. rewrite lookup_insert_eq. simpl. eauto.
Qed.

(** Inside one window nothing is pruned: the list grows by one timestamp
    per check and the [k]-th check decides on its length. *)
Lemma memory_checks_within_window client_ip m w lo ts : forall self,
  is_Some (RateLimiter.memory_store self) ->
  (forall t, t ∈ (stored self client_ip ++ ts)%list -> (lo <= t < lo + w)%Z) ->
  let out := RateLimiter.memory_checks self client_ip m w ts in
  stored (snd out) client_ip = (stored self client_ip ++ ts)%list /\
  is_Some (RateLimiter.memory_store (snd out)) /\
  length (fst out) = length ts /\
  (forall (k : nat) r, fst out !! k = Some r ->
     r = verdict m (length (stored self client_ip) + k + 1)).
Proof.
  induction ts as [|t ts IH]; intros self Hs Hwin; simpl.
  - rewrite app_nil_r. repeat split; [assumption|]. intros k r Hk.
    rewrite lookup_nil in Hk. discriminate.
  - destruct (check_memory_stored self client_ip t (t - w)%Z m Hs)
      as (Hv & Hst & Hs').
    destruct (RateLimiter._check_memory_rate_limit self client_ip t (t - w) m)
      as [r self'] eqn:Hc. simpl in Hv, Hst, Hs'.
    rewrite filter_all in Hv, Hst.
    2,3:
      (intros x Hx;
       assert (lo <= x < lo + w)%Z
         by (apply Hwin, elem_of_app; left; exact Hx);
       assert (lo <= t < lo + w)%Z
         by (apply Hwin, elem_of_app; right; left);
       lia).
    specialize (IH self' Hs').
    destruct (RateLimiter.memory_checks self' client_ip m w ts) as [rs self''].
    cbn [fst snd] in *. rewrite Hst, <- app_assoc in IH.
    destruct (IH Hwin) as (Hst'' & Hs'' & Hlen & Hk).
    split; [exact Hst''|]. split; [exact Hs''|].
    split; [simpl; lia|].
    intros [|k] r0 Hr0; simpl in Hr0.
    + injection Hr0 as <-. rewrite Hv, length_app. simpl. f_equal. lia.
    + rewrite (Hk k r0 Hr0), length_app. simpl. f_equal. lia.
Qed.

(** With Redis switched off, [check_rate_limit] is the in-memory check with
    [window_start = current_time - window_seconds]. *)
Lemma check_rate_limit_memory_path self pipe_execute t request client_ip m w :
  RateLimiter.redis_available self = false ->
  client_host request = Some client_ip ->
  RateLimiter.check_rate_limit self pipe_execute t request m w
  = RateLimiter._check_memory_rate_limit self client_ip t (t - w)%Z m.
Proof.
  intros Hr Hc. unfold RateLimiter.check_rate_limit, main.request_client_host.
  rewrite Hc, Hr. reflexivity.
Qed.

(** C5. One client, nothing stored for it yet.  [max_requests] checks whose
    timestamps, together with that of the check after them, fit in one
    window ([lo <= t < lo + window_seconds]) are all admitted; the check
    after them is rejected with 429; and once a full window has gone by
    since all of them, a check finds the client's list empty again, so that
    it is admitted (there being at least one request to admit per
    window). *)
Theorem memory_rate_limit_window self client_ip m w lo ts t_next t_after :
  is_Some (RateLimiter.memory_store self) ->
  stored self client_ip = [] ->
  Z.of_nat (length ts) = m ->
  (forall t, t ∈ (ts ++ [t_next])%list -> (lo <= t < lo + w)%Z) ->
  (forall t, t ∈ (ts ++ [t_next])%list -> (t + w <= t_after)%Z) ->
  let run := RateLimiter.memory_checks self client_ip m w ts in
  let next :=
    RateLimiter._check_memory_rate_limit (snd run) client_ip t_next
      (t_next - w)%Z m in
  let after :=
    RateLimiter._check_memory_rate_limit (snd next) client_ip t_after
      (t_after - w)%Z m in
  length (fst run) = length ts /\
  Forall (fun r => r = Returned tt) (fst run) /\
  fst next = rate_limited m /\
  stored (snd after) client_ip = [t_after] /\
  ((0 < m)%Z -> fst after = Returned tt).
Proof.
  intros Hs Hempty Hlen Hwin Hgap run next after.
  destruct (memory_checks_within_window client_ip m w lo ts self Hs)
    as (Hst & Hs1 & Hl & Hk).
  { rewrite Hempty. intros t Ht. apply Hwin, elem_of_app. now left. }
  fold run in Hst, Hs1, Hl, Hk. rewrite Hempty in Hst, Hk. simpl in Hst, Hk.
  destruct (check_memory_stored (snd run) client_ip t_next (t_next - w)%Z m
              Hs1) as (Hv & Hst2 & Hs2).
  fold next in Hv, Hst2, Hs2. rewrite Hst in Hv, Hst2.
  rewrite filter_all in Hv, Hst2.
  2,3: (intros x Hx;
        assert (lo <= x < lo + w)%Z
          by (apply Hwin, elem_of_app; left; exact Hx);
        assert (lo <= t_next < lo + w)%Z
          by (apply Hwin, elem_of_app; right; left);
        lia).
  destruct (check_memory_stored (snd next) client_ip t_after (t_after - w)%Z m
              Hs2) as (Hv3 & Hst3 & _).
  fold after in Hv3, Hst3. rewrite Hst2 in Hv3, Hst3.
  rewrite filter_none in Hv3, Hst3.
  2,3: (intros x Hx; specialize (Hgap x Hx); lia).
  split; [exact Hl|]. split; [|split; [|split]].
  - apply Forall_lookup. intros k r Hr. rewrite (Hk k r Hr).
    apply verdict_Returned. apply lookup_lt_Some in Hr. lia.
  - rewrite Hv. apply verdict_rate_limited. rewrite length_app. simpl. lia.
  - exact Hst3.
  - intros Hm. rewrite Hv3. apply verdict_Returned. simpl. lia.
Qed.

Lemma memory_rate_limit_window_witness :
  is_Some (RateLimiter.memory_store local_limiter) /\
  stored local_limiter "203.0.113.7" = [] /\
  fst (RateLimiter.memory_checks local_limiter "203.0.113.7" 3 60
         [100; 100; 159]%Z)
  = [Returned tt; Returned tt; Returned tt] /\
  fst (RateLimiter._check_memory_rate_limit
         (snd (RateLimiter.memory_checks local_limiter "203.0.113.7" 3 60
                 [100; 100; 159]%Z)) "203.0.113.7" 159 (159 - 60)%Z 3)
  = rate_limited 3 /\
  fst (RateLimiter._check_memory_rate_limit
         (snd (RateLimiter._check_memory_rate_limit
                 (snd (RateLimiter.memory_checks local_limiter "203.0.113.7"
                         3 60 [100; 100; 159]%Z))
                 "203.0.113.7" 159 (159 - 60)%Z 3))
         "203.0.113.7" 219 (219 - 60)%Z 3)
  = Returned tt.
Proof.
  assert (forall t, t ∈ ([100; 100; 159] ++ [159])%list ->
                    (100 <= t < 100 + 60)%Z) as Hwin.
  { intros t Ht. simpl in Ht. rewrite !elem_of_cons in Ht.
    destruct Ht as [->|[->|[->|[->|Ht]]]]; [lia..|].
    apply elem_of_nil in Ht. contradiction. }
  assert (forall t, t ∈ ([100; 100; 159] ++ [159])%list ->
                    (t + 60 <= 219)%Z) as Hgap.
  { intros t Ht. specialize (Hwin t Ht). lia. }
  pose proof (memory_rate_limit_window local_limiter "203.0.113.7" 3 60 100
                [100; 100; 159]%Z 159 219 (ex_intro _ _ eq_refl) eq_refl
                eq_refl Hwin Hgap) as H.
  cbv zeta in H. destruct H as (_ & _ & Hnext & _ & Hafter).
  split; [eexists; reflexivity|]. split; [reflexivity|].
  split; [vm_compute; reflexivity|]. split; [exact Hnext|].
  apply Hafter. lia.
Defined.

Lemma filter_filter_implied {A} (P Q : A -> Prop) `{forall x, Decision (P x)}
    `{forall x, Decision (Q x)} (l : list A) :
  (forall x, P x -> Q x) -> filter P (filter Q l) = filter P l.
Proof.
  intros Himp. induction l as [|a l IH]; [reflexivity|].
  rewrite (filter_cons Q). destruct (decide (Q a)) as [Hq|Hq].
  - rewrite !filter_cons. destruct (decide (P a)); congruence.
  - rewrite filter_cons. destruct (decide (P a)) as [Hp|_]; [|exact IH].
    exfalso. apply Hq, Himp, Hp.
Qed.

(** When time does not run backwards, what is pruned at one check would be
    pruned at every later one: the [k]-th check of a run decides on all the
    earlier timestamps that are inside its window, those of rejected
    requests included. *)
Lemma memory_checks_sorted client_ip m w ts : forall self,
  is_Some (RateLimiter.memory_store self) ->
  StronglySorted Z.le ts ->
  forall (k : nat) t, ts !! k = Some t ->
    fst (RateLimiter.memory_checks self client_ip m w ts) !! k
    = Some (verdict m
              (length (filter (fun r => (t - w < r)%Z)
                         (stored self client_ip ++ take k ts)%list) + 1)).
Proof.
  induction ts as [|t0 ts IH]; intros self Hs Hsorted k t Hk.
  - rewrite lookup_nil in Hk. discriminate.
  - apply StronglySorted_inv in Hsorted as [Hsorted Hle].
    destruct (check_memory_stored self client_ip t0 (t0 - w)%Z m Hs)
      as (Hv & Hst & Hs').
    simpl.
    destruct (RateLimiter._check_memory_rate_limit self client_ip t0
                (t0 - w) m) as [r self'] eqn:Hc.
    cbn [fst snd] in Hv, Hst, Hs'.
    specialize (IH self' Hs' Hsorted).
    destruct (RateLimiter.memory_checks self' client_ip m w ts) as [rs self''].
    cbn [fst snd] in *.
    destruct k as [|k]; simpl in Hk |- *.
    + injection Hk as <-. rewrite Hv, app_nil_r, length_app. reflexivity.
    + rewrite (IH k t Hk), Hst. do 3 f_equal.
      rewrite <- app_assoc.
      rewrite (filter_app _ (filter _ _)), (filter_app _ (stored _ _)).
      rewrite filter_filter_implied; [reflexivity|].
      intros x Hx.
      assert (t0 <= t)%Z; [|lia].
      rewrite Forall_forall in Hle. apply Hle.
      apply list_elem_of_lookup. eauto.
Qed.

(** C9 (as the code has it). Every call of the in-memory check appends the
    current timestamp to the client's list before it decides, also when it
    rejects; so rejected requests count later on: a request is rejected
    exactly when at least [max_requests] earlier requests of the client,
    admitted or rejected, have timestamps inside its window, and a client
    that keeps sending stays rejected for as long as each request finds
    that many.  A pause of a full window empties the list, after which the
    client is admitted (given [max_requests >= 1]); nothing makes a full
    window necessary. *)
Theorem memory_check_counts_rejected self client_ip m w :
  is_Some (RateLimiter.memory_store self) ->
  (forall t,
     let out :=
       RateLimiter._check_memory_rate_limit self client_ip t (t - w)%Z m in
     let kept := filter (fun r => (t - w < r)%Z) (stored self client_ip) in
     stored (snd out) client_ip = (kept ++ [t])%list /\
     (fst out = rate_limited m <-> (m <= Z.of_nat (length kept))%Z) /\
     (fst out = Returned tt <-> (Z.of_nat (length kept) < m)%Z)) /\
  (forall ts, StronglySorted Z.le ts ->
     forall (k : nat) t, ts !! k = Some t ->
       let earlier :=
         filter (fun r => (t - w < r)%Z)
                (stored self client_ip ++ take k ts)%list in
       let outcomes :=
         fst (RateLimiter.memory_checks self client_ip m w ts) in
       (outcomes !! k = Some (rate_limited m) <->
        (m <= Z.of_nat (length earlier))%Z) /\
       (outcomes !! k = Some (Returned tt) <->
        (Z.of_nat (length earlier) < m)%Z)) /\
  (forall t, (0 < m)%Z ->
     (forall a, a ∈ stored self client_ip -> (a + w <= t)%Z) ->
     fst (RateLimiter._check_memory_rate_limit self client_ip t (t - w)%Z m)
     = Returned tt).
Proof.
  intros Hs. split; [|split].
  - intros t out kept.
    destruct (check_memory_stored self client_ip t (t - w)%Z m Hs)
      as (Hv & Hst & _).
    fold out in Hv, Hst. fold kept in Hv, Hst.
    split; [exact Hst|]. rewrite Hv, verdict_rate_limited, verdict_Returned.
    rewrite length_app. simpl. lia.
  - intros ts Hsorted k t Hk earlier outcomes. subst outcomes.
    rewrite (memory_checks_sorted client_ip m w ts self Hs Hsorted k t Hk).
    fold earlier. split.
    + split.
      * intros [= Hv]. apply verdict_rate_limited in Hv. lia.
      * intros Hm. f_equal. apply verdict_rate_limited. lia.
    + split.
      * intros [= Hv]. apply verdict_Returned in Hv. lia.
      * intros Hm. f_equal. apply verdict_Returned. lia.
  - intros t Hm Hold.
    destruct (check_memory_stored self client_ip t (t - w)%Z m Hs)
      as (Hv & _ & _).
    rewrite Hv, filter_none; [apply verdict_Returned; simpl; lia|].
    intros x Hx. specialize (Hold x Hx). lia.
Qed.

Lemma memory_check_counts_rejected_witness :
  is_Some (RateLimiter.memory_store local_limiter) /\
  (forall (k : nat) t, [0; 1; 1; 2; 3; 3; 30]%Z !! k = Some t ->
     fst (RateLimiter.memory_checks local_limiter "203.0.113.7" 2 10
            [0; 1; 1; 2; 3; 3; 30]%Z) !! k = Some (rate_limited 2) <->
     (2 <= Z.of_nat (length (filter (fun r => (t - 10 < r)%Z)
                               (take k [0; 1; 1; 2; 3; 3; 30]%Z))))%Z) /\
  fst (RateLimiter.memory_checks local_limiter "203.0.113.7" 2 10
         [0; 1; 1; 2; 3; 3; 30]%Z)
  = [Returned tt; Returned tt; rate_limited 2; rate_limited 2;
     rate_limited 2; rate_limited 2; Returned tt].
Proof.
  assert (is_Some (RateLimiter.memory_store local_limiter)) as Hs
    by (eexists; reflexivity).
  split; [exact Hs|]. split; [|vm_compute; reflexivity].
  intros k t Hk.
  assert (StronglySorted Z.le [0; 1; 1; 2; 3; 3; 30]%Z) as Hsorted.
  { repeat (constructor; [|repeat constructor; lia]). constructor. }
  exact (proj1 (proj1 (proj2 (memory_check_counts_rejected local_limiter
                                "203.0.113.7" 2 10 Hs))
                  [0; 1; 1; 2; 3; 3; 30]%Z Hsorted k t Hk)).
Defined.

(** Against C9 as stated: the client is rejected at time 2, pauses for 9
    seconds of a 10-second window, and is admitted at time 11, the
    timestamps 0 and 1 having left the window by then. *)
Lemma rejected_client_admitted_within_window :
  fst (RateLimiter.memory_checks local_limiter "203.0.113.7" 2 10
         [0; 1; 2; 11]%Z)
  = [Returned tt; Returned tt; rate_limited 2; Returned tt] /\
  (11 - 2 < 10)%Z.
Proof. split; [vm_compute; reflexivity|lia]. Qed.

(** C8 (against the code). A limiter whose [__init__] obtained a Redis
    client has no [memory_store] attribute, and only such a limiter tries
    Redis: when [pipe.execute()] then raises a [RedisError], the handler
    calls the in-memory check, which raises [AttributeError] before any
    decision is made.  The caller gets that error, for every request, client
    and limit. *)
Theorem check_rate_limit_redis_failure client msg t client_ip agent referer
    m w :
  let self := RateLimiter.__init__ (Returned client) in
  RateLimiter.check_rate_limit self (Raised (RedisError msg)) t
    (mkRequest (Some client_ip) agent referer) m w
  = (Raised RateLimiter.no_memory_store, self).
Proof. reflexivity. Qed.

(** ** Top-five breakdowns *)

Lemma occurrences_snoc v vals k :
  occurrences v (vals ++ [k])
  = if decide (v = k) then S (occurrences v vals) else occurrences v vals.
Proof.
  unfold occurrences. rewrite filter_app, length_app, filter_cons, filter_nil.
  destruct (decide (k = v)), (decide (v = k)); simpl; try congruence; lia.
Qed.

Lemma occurrences_absent v vals : v ∉ vals -> occurrences v vals = O.
Proof.
  intros Hv. unfold occurrences. rewrite filter_none; [reflexivity|].
  intros x Hx ->. contradiction.
Qed.

Lemma first_index_lt v vals :
  v ∈ vals -> (first_index v vals < length vals)%nat.
Proof.
  induction vals as [|x vals IH]; intros Hv; simpl.
  - apply elem_of_nil in Hv. contradiction.
  - destruct (decide (x = v)); [lia|].
    apply elem_of_cons in Hv as [->|Hv]; [congruence|].
    specialize (IH Hv). lia.
Qed.

Lemma first_index_app_l v vals more :
  v ∈ vals -> first_index v (vals ++ more) = first_index v vals.
Proof.
  induction vals as [|x vals IH]; intros Hv; simpl.
  - apply elem_of_nil in Hv. contradiction.
  - destruct (decide (x = v)); [reflexivity|].
    apply elem_of_cons in Hv as [->|Hv]; [congruence|]. now rewrite IH.
Qed.

Lemma first_index_snoc_new v vals :
  v ∉ vals -> first_index v (vals ++ [v]) = length vals.
Proof.
  induction vals as [|x vals IH]; intros Hv; simpl.
  - destruct (decide (v = v)); congruence.
  - apply not_elem_of_cons in Hv as [Hne Hv].
    destruct (decide (x = v)); [congruence|]. now rewrite IH.
Qed.

Lemma first_seen_snoc vals k :
  first_seen (vals ++ [k])
  = if decide (k ∈ vals) then first_seen vals else (first_seen vals ++ [k])%list.
Proof.
  unfold first_seen. rewrite reverse_app. simpl.
  destruct (decide_rel elem_of k (reverse vals)) as [Hin|Hin];
    destruct (decide (k ∈ vals)) as [Hin'|Hin'];
    rewrite elem_of_reverse in Hin; try contradiction; [reflexivity|].
  now rewrite reverse_cons.
Qed.

Lemma elem_of_first_seen v vals : v ∈ first_seen vals <-> v ∈ vals.
Proof.
  unfold first_seen.
  now rewrite elem_of_reverse, elem_of_remove_dups, elem_of_reverse.
Qed.

Lemma NoDup_first_seen vals : NoDup (first_seen vals).
Proof.
  unfold first_seen. rewrite reverse_Permutation. apply NoDup_remove_dups.
Qed.

Lemma StronglySorted_ext {A} (R R' : A -> A -> Prop) (l : list A) :
  (forall a b, a ∈ l -> b ∈ l -> R a b -> R' a b) ->
  StronglySorted R l -> StronglySorted R' l.
Proof.
  induction l as [|x l IH]; intros Himp Hs; [constructor|].
  apply StronglySorted_cons in Hs as [Hall Hs].
  apply StronglySorted_cons. split.
  - rewrite Forall_forall in *. intros y Hy.
    apply Himp; [left|now right|now apply Hall].
  - apply IH; [|exact Hs]. intros a b Ha Hb. apply Himp; now right.
Qed.

(** The distinct values come in the order of their first occurrences. *)
Lemma first_seen_sorted vals :
  StronglySorted
    (fun a b => (first_index a vals < first_index b vals)%nat)
    (first_seen vals).
Proof.
  induction vals as [|k vals IH] using rev_ind; [constructor|].
  rewrite first_seen_snoc.
  assert (StronglySorted
            (fun a b => (first_index a (vals ++ [k])
                         < first_index b (vals ++ [k]))%nat)
            (first_seen vals)) as Hold.
  { eapply StronglySorted_ext; [|exact IH]. intros a b Ha Hb Hlt.
    rewrite elem_of_first_seen in Ha, Hb. simpl in Hlt.
    rewrite (first_index_app_l a), (first_index_app_l b) by assumption.
    exact Hlt. }
  destruct (decide (k ∈ vals)) as [Hin|Hnew]; [exact Hold|].
  apply StronglySorted_app_2; [|exact Hold|repeat constructor].
  intros a b Ha Hb. apply list_elem_of_singleton in Hb. subst b.
  rewrite elem_of_first_seen in Ha.
  rewrite first_index_app_l, first_index_snoc_new by assumption.
  now apply first_index_lt.
Qed.

(** Counting one more value in a counter whose keys are distinct. *)
Lemma counter_add_map k (cnt : string -> nat) (u : list string) :
  NoDup u ->
  Counter.add k (map (fun v => (v, cnt v)) u)
  = if decide (k ∈ u)
    then map (fun v => (v, if decide (v = k) then S (cnt v) else cnt v)) u
    else (map (fun v => (v, cnt v)) u ++ [(k, 1%nat)])%list.
Proof.
  induction u as [|v0 u IH]; intros Hnd; simpl.
  - destruct (decide (k ∈ [])) as [Hin|_]; [|reflexivity].
    apply elem_of_nil in Hin. contradiction.
  - apply NoDup_cons in Hnd as [Hv0 Hnd].
    destruct (String.eqb_spec v0 k) as [->|Hne].
    + destruct (decide (k ∈ k :: u)) as [_|Hn]; [|exfalso; apply Hn; left].
      destruct (decide (k = k)); [|congruence]. f_equal.
      apply map_ext_in. intros v Hv. destruct (decide (v = k)) as [->|_];
        [|reflexivity].
      exfalso. apply Hv0. now apply list_elem_of_In.
    + rewrite (IH Hnd). destruct (decide (v0 = k)); [congruence|].
      destruct (decide (k ∈ u)) as [Hin|Hin];
        destruct (decide (k ∈ v0 :: u)) as [Hin'|Hin']; try reflexivity.
      * exfalso. apply Hin'. now right.
      * apply elem_of_cons in Hin' as [->|Hin']; [congruence|contradiction].
Qed.

(** [Counter(vals)] lists the distinct values in the order of their first
    occurrences, each with the number of its occurrences. *)
Lemma counter_of_list vals :
  Counter.of_list vals
  = map (fun v => (v, occurrences v vals)) (first_seen vals).
Proof.
  unfold Counter.of_list.
  induction vals as [|k vals IH] using rev_ind; [reflexivity|].
  rewrite fold_left_app. simpl. rewrite IH.
  rewrite counter_add_map by apply NoDup_first_seen.
  rewrite first_seen_snoc.
  destruct (decide (k ∈ first_seen vals)) as [Hin|Hin];
    destruct (decide (k ∈ vals)) as [Hin'|Hin'];
    rewrite elem_of_first_seen in Hin; try contradiction.
  - apply map_ext. intros v. rewrite occurrences_snoc. reflexivity.
  - rewrite map_app. simpl. f_equal.
    + apply map_ext_in. intros v Hv. rewrite occurrences_snoc.
      destruct (decide (v = k)) as [->|_]; [|reflexivity].
      exfalso. apply Hin'. apply elem_of_first_seen. now apply list_elem_of_In.
    + rewrite occurrences_snoc, occurrences_absent by assumption.
      destruct (decide (k = k)); congruence.
Qed.

Lemma counter_insert_Permutation x l : Counter.insert x l ≡ₚ x :: l.
Proof.
  induction l as [|y l IH]; simpl; [reflexivity|].
  destruct (snd x <? snd y)%nat; [|reflexivity].
  rewrite IH. apply Permutation_swap.
Qed.

Lemma counter_sorted_Permutation c : Counter.sorted c ≡ₚ c.
Proof.
  induction c as [|x c IH]; simpl; [reflexivity|].
  rewrite counter_insert_Permutation. now rewrite IH.
Qed.

Section StableSort.

Variable ord : string * nat -> nat.

Lemma counter_insert_sorted x l :
  (forall y, y ∈ l -> (ord x < ord y)%nat) ->
  StronglySorted (outranks_by ord) l ->
  StronglySorted (outranks_by ord) (Counter.insert x l).
Proof.
  induction l as [|y l IH]; intros Hfirst Hs; simpl.
  - repeat constructor.
  - apply StronglySorted_cons in Hs as [Hy Hs].
    rewrite Forall_forall in Hy.
    destruct (Nat.ltb_spec (snd x) (snd y)) as [Hlt|Hge].
    + apply StronglySorted_cons. split.
      * rewrite Forall_forall. intros z Hz.
        rewrite counter_insert_Permutation in Hz.
        apply elem_of_cons in Hz as [->|Hz]; [now left|now apply Hy].
      * apply IH; [|exact Hs]. intros z Hz. apply Hfirst. now right.
    + apply StronglySorted_cons. split.
      * rewrite Forall_forall. intros z Hz.
        pose proof (Hfirst z Hz) as Hord.
        apply elem_of_cons in Hz as [->|Hz].
        -- unfold outranks_by. lia.
        -- specialize (Hy z Hz). unfold outranks_by in *. lia.
      * apply StronglySorted_cons. rewrite Forall_forall. auto.
Qed.

(** The sort is by descending count and keeps items of equal count in
    their input order. *)
Lemma counter_sorted_sorted c :
  StronglySorted (fun a b => (ord a < ord b)%nat) c ->
  StronglySorted (outranks_by ord) (Counter.sorted c).
Proof.
  induction c as [|x c IH]; intros Hs; simpl; [constructor|].
  apply StronglySorted_cons in Hs as [Hx Hs].
  apply counter_insert_sorted; [|now apply IH].
  intros y Hy. rewrite counter_sorted_Permutation in Hy.
  rewrite Forall_forall in Hx. now apply Hx.
Qed.

End StableSort.

Lemma occurrences_pos v vals : v ∈ vals -> (1 <= occurrences v vals)%nat.
Proof.
  intros Hv. unfold occurrences.
  assert (v ∈ filter (fun x => x = v) vals) as Hin
    by (apply list_elem_of_filter; auto).
  destruct (filter _ vals); [apply elem_of_nil in Hin; contradiction|].
  simpl. lia.
Qed.

Lemma StronglySorted_map {A B} (R : B -> B -> Prop) (g : A -> B)
    (l : list A) :
  StronglySorted (fun x y => R (g x) (g y)) l -> StronglySorted R (map g l).
Proof.
  induction 1 as [|x l Hs IH Hx]; simpl; constructor; [exact IH|].
  rewrite Forall_forall in Hx. rewrite Forall_forall. intros y Hy.
  change map with (@fmap list _) in Hy.
  apply list_elem_of_fmap in Hy as (z & -> & Hz). apply Hx, Hz.
Qed.

Lemma most_common_top_five vals :
  top_five vals (Counter.most_common 5 (Counter.of_list vals)).
Proof.
  unfold Counter.most_common.
  set (c := Counter.of_list vals).
  set (ord := fun a : string * nat => first_index (fst a) vals).
  assert (c = map (fun v => (v, occurrences v vals)) (first_seen vals)) as Hc
    by apply counter_of_list.
  assert (forall v n, (v, n) ∈ c <-> v ∈ vals /\ n = occurrences v vals)
    as Hmem.
  { intros v n. rewrite Hc. change map with (@fmap list _). 
    rewrite list_elem_of_fmap. split.
    - intros (x & [= -> ->] & Hx). rewrite elem_of_first_seen in Hx. auto.
    - intros [Hv ->]. exists v. rewrite elem_of_first_seen. auto. }
  assert (map fst c = first_seen vals) as Hkeys.
  { rewrite Hc, map_map. simpl. apply map_id. }
  assert (StronglySorted (outranks vals) (Counter.sorted c)) as Hsorted.
  { apply (counter_sorted_sorted ord). rewrite Hc.
    apply StronglySorted_map, first_seen_sorted. }
  pose proof (counter_sorted_Permutation c) as Hperm.
  rewrite <- (take_drop 5 (Counter.sorted c)) in Hsorted, Hperm.
  set (top := take 5 (Counter.sorted c)) in *.
  set (rest := drop 5 (Counter.sorted c)) in *.
  assert (forall a, a ∈ top -> a ∈ c) as Htop.
  { intros a Ha. rewrite <- Hperm. apply elem_of_app. now left. }
  assert (forall w, w ∈ vals -> w ∉ map fst top ->
                    (w, occurrences w vals) ∈ rest) as Hrest.
  { intros w Hw Hout.
    assert ((w, occurrences w vals) ∈ (top ++ rest)%list) as Hin.
    { rewrite Hperm. apply Hmem. auto. }
    apply elem_of_app in Hin as [Hin|Hin]; [|exact Hin].
    exfalso. apply Hout. change map with (@fmap list _).
    apply list_elem_of_fmap. exists (w, occurrences w vals). auto. }
  unfold top_five. split; [|split; [|split; [|split]]].
  - subst top. rewrite length_take. lia.
  - intros v n Hv. apply Htop, Hmem in Hv as [Hv ->].
    auto using occurrences_pos.
  - assert (NoDup (map fst (top ++ rest))) as Hnd.
    { change map with (@fmap list _). rewrite Hperm.
      change (@fmap list _) with map. rewrite Hkeys.
      apply NoDup_first_seen. }
    rewrite map_app in Hnd. now apply NoDup_app in Hnd as [Hnd _].
  - intros i j a b Hij Hi Hj.
    apply StronglySorted_app_1_l in Hsorted.
    rewrite <- (take_drop_middle top j b Hj) in Hsorted.
    apply (StronglySorted_app_1_elem_of _ _ _ a b Hsorted); [|left].
    apply list_elem_of_lookup. exists i. rewrite lookup_take_lt; assumption.
  - intros w Hw Hout. specialize (Hrest w Hw Hout). split.
    + subst top rest. rewrite length_take.
      destruct (Nat.le_gt_cases 5 (length (Counter.sorted c))); [lia|].
      rewrite drop_ge in Hrest by lia. apply elem_of_nil in Hrest.
      contradiction.
    + intros a Ha.
      exact (StronglySorted_app_1_elem_of _ _ _ _ _ Hsorted Ha Hrest).
Qed.

Example most_common_ties :
  Counter.most_common 2 (Counter.of_list ["a"; "b"; "b"; "c"; "a"; "d"])
  = [("a", 2%nat); ("b", 2%nat)].
Proof. reflexivity. Qed.

(** The values a breakdown is made of: the non-empty values of the field,
    one per event that has one, in the order of the events. *)
Lemma truthy_values_cons (f : Click.t -> option string) c events :
  AnalyticsService.truthy_values f (c :: events)
  = match f c with
    | Some v => if decide (v = "") then AnalyticsService.truthy_values f events
                else v :: AnalyticsService.truthy_values f events
    | None => AnalyticsService.truthy_values f events
    end.
Proof.
  unfold AnalyticsService.truthy_values. simpl.
  destruct (f c) as [v|]; simpl; [|reflexivity].
  destruct (String.eqb_spec v ""), (decide (v = "")); try congruence;
    reflexivity.
Qed.

Lemma elem_of_truthy_values (f : Click.t -> option string) events v :
  v ∈ AnalyticsService.truthy_values f events <->
  v <> "" /\ exists c, c ∈ events /\ f c = Some v.
Proof.
  induction events as [|c events IH].
  - split; [intros H; apply elem_of_nil in H; contradiction|].
    intros (_ & c & Hc & _). apply elem_of_nil in Hc. contradiction.
  - rewrite truthy_values_cons.
    assert (v ∈ AnalyticsService.truthy_values f events ->
            v <> "" /\ exists c0, c0 ∈ c :: events /\ f c0 = Some v) as Htl.
    { intros H. apply IH in H as (Hv & c0 & Hc0 & Hf).
      split; [exact Hv|]. exists c0. split; [now right|exact Hf]. }
    split.
    + destruct (f c) as [v0|] eqn:Hfc; [|exact Htl].
      destruct (decide (v0 = "")); [exact Htl|].
      intros [->|H]%elem_of_cons; [|now apply Htl].
      split; [assumption|]. exists c. split; [left|exact Hfc].
    + intros (Hv & c0 & [->|Hc0]%elem_of_cons & Hf).
      * rewrite Hf. destruct (decide (v = "")); [contradiction|left].
      * assert (v ∈ AnalyticsService.truthy_values f events) as Hin
          by (apply IH; eauto).
        destruct (f c) as [v0|]; [|exact Hin].
        destruct (decide (v0 = "")); [exact Hin|now right].
Qed.

(** The frequency of a value is the number of events that carry it. *)
Lemma occurrences_truthy_values (f : Click.t -> option string) events v :
  v <> "" ->
  occurrences v (AnalyticsService.truthy_values f events)
  = length (filter (fun c => f c = Some v) events).
Proof.
  intros Hv. induction events as [|c events IH]; [reflexivity|].
  rewrite truthy_values_cons, filter_cons.
  destruct (f c) as [v0|] eqn:Hfc.
  - destruct (decide (v0 = "")) as [->|Hne].
    + destruct (decide (Some "" = Some v)) as [[= <-]|_];
        [contradiction|exact IH].
    + unfold occurrences in *. rewrite filter_cons.
      destruct (decide (v0 = v)) as [Hd|Hd];
        destruct (decide (Some v0 = Some v)) as [E|E]; simpl;
        congruence.
  - destruct (decide (None = Some v)); [discriminate|exact IH].
Qed.

(** C7. In the summary of any list of click events, each of the breakdowns
    by country, by referrer and by browser has at most five entries; every
    entry pairs a non-empty value of the field with the number of events
    that carry it; no value is listed twice; the entries come by descending
    frequency, entries of equal frequency in the order in which their values
    first occur in the events; and every value left out is outranked, in
    that order, by all five entries. *)
Theorem get_analytics_top_five now db code :
  let summary := AnalyticsService.get_analytics now db code in
  let events := clicks_of db code in
  let values f := AnalyticsService.truthy_values f events in
  top_five (values Click.country) (AnalyticsService.top_countries summary) /\
  top_five (values Click.referer) (AnalyticsService.top_referrers summary) /\
  top_five (values Click.user_agent)
           (AnalyticsService.browser_stats summary) /\
  (forall f v,
     (v ∈ values f <-> v <> "" /\ exists c, c ∈ events /\ f c = Some v) /\
     (v <> "" ->
      occurrences v (values f)
      = length (filter (fun c => f c = Some v) events))).
Proof.
  intros summary events values.
  assert (forall f, top_five (values f)
                      (Counter.most_common 5 (Counter.of_list (values f))))
    as Htop by (intros f; apply most_common_top_five).
  assert (AnalyticsService.top_countries summary
          = Counter.most_common 5 (Counter.of_list (values Click.country)) /\
          AnalyticsService.top_referrers summary
          = Counter.most_common 5 (Counter.of_list (values Click.referer)) /\
          AnalyticsService.browser_stats summary
          = Counter.most_common 5 (Counter.of_list (values Click.user_agent)))
    as (-> & -> & ->).
  { subst summary values events.
    unfold AnalyticsService.get_analytics, clicks_of.
    destruct (List.filter _ (clicks db)); repeat split; reflexivity. }
  split; [apply Htop|]. split; [apply Htop|]. split; [apply Htop|].
  intros f v. split.
  - apply elem_of_truthy_values.
  - apply occurrences_truthy_values.
Qed.

(** * Further properties *)

(** ** Generated and custom codes *)

Lemma get_chars s : forall i c, String.get i s = Some c -> In c (chars s).
Proof.
  induction s as [|a s IH]; intros i c H; simpl in *; [discriminate|].
  destruct i as [|i]; [injection H as ->; now left|right; eauto].
Qed.

Lemma random_choice_characters draw :
  In (URLService.random_choice draw) (chars URLService.characters).
Proof.
  unfold URLService.random_choice.
  destruct (String.get _ URLService.characters) as [c|] eqn:Hc.
  - eapply get_chars, Hc.
  - simpl. now left.
Qed.

Lemma generate_short_code_chars rand n : forall pos,
  Forall (fun c => In c (chars URLService.characters))
         (chars (fst (URLService.generate_short_code rand n pos))).
Proof.
  induction n as [|n IH]; intros pos; simpl; [constructor|].
  specialize (IH (S pos)).
  destruct (URLService.generate_short_code rand n (S pos)) as [rest pos'].
  simpl in *. constructor; [apply random_choice_characters|exact IH].
Qed.

(** X1. [generate_short_code] returns a code of exactly the requested
    length, made of characters of the 62-letter alphabet only, and consumes
    one random draw per character. *)
Theorem generate_short_code_shape rand length pos :
  let code := fst (URLService.generate_short_code rand length pos) in
  String.length code = length /\
  Forall (fun c => In c (chars URLService.characters)) (chars code) /\
  snd (URLService.generate_short_code rand length pos) = (pos + length)%nat /\
  String.length URLService.characters = 62%nat.
Proof.
  cbv zeta. split; [apply generate_short_code_length|].
  split; [apply generate_short_code_chars|].
  split; [apply generate_short_code_pos|reflexivity].
Qed.

(** What the loop returns: the first candidate that is not in the store. *)
Lemma generate_unique_Some fuel rand db : forall pos c p,
  URLService.generate_unique fuel rand db pos = Some (c, p) ->
  exists i, (i < fuel)%nat /\ c = candidate rand pos i /\
            p = (pos + 6 * S i)%nat /\ ~ In c (codes db) /\
            forall j, (j < i)%nat -> In (candidate rand pos j) (codes db).
Proof.
  induction fuel as [|fuel IH]; intros pos c p H; [discriminate|].
  rewrite generate_unique_S in H.
  destruct (first_url_with_code db (candidate rand pos 0)) as [u|] eqn:Hf.
  - apply IH in H as (i & Hi & -> & -> & Hfree & Htaken).
    exists (S i). rewrite candidate_shift in *.
    split; [lia|]. split; [reflexivity|]. split; [lia|].
    split; [exact Hfree|].
    intros [|j] Hj.
    + apply first_url_with_code_Some in Hf as [Hin <-].
      unfold codes. apply in_map. exact Hin.
    + rewrite <- candidate_shift. apply Htaken. lia.
  - injection H as <- <-. exists O.
    split; [lia|]. split; [reflexivity|]. split; [lia|].
    split; [now apply first_url_with_code_None|].
    intros j Hj. lia.
Qed.

Lemma candidate_length rand pos i : String.length (candidate rand pos i) = 6%nat.
Proof. apply generate_short_code_length. Qed.

Lemma truthy_Some_ne (custom_code : option string) :
  truthy custom_code = true ->
  exists c, custom_code = Some c /\ c <> "".
Proof.
  destruct custom_code as [c|]; simpl; [|discriminate].
  destruct (String.eqb_spec c ""); [discriminate|eauto].
Qed.

(** The code of the row a successful [create_short_url] returns. *)
Lemma create_short_url_code_cases validators_url fuel rand now db pos
    original_url custom_code creator_ip u db' pos' :
  URLService.create_short_url validators_url fuel rand now db pos original_url
    custom_code creator_ip = Some (Returned (u, db', pos')) ->
  (truthy custom_code = true /\ custom_code = Some (URL.short_code u) /\
   pos' = pos) \/
  (truthy custom_code = false /\
   exists i, (i < fuel)%nat /\ URL.short_code u = candidate rand pos i /\
             pos' = (pos + 6 * S i)%nat /\
             forall j, (j < i)%nat -> In (candidate rand pos j) (codes db)).
Proof.
  unfold URLService.create_short_url.
  destruct (negb (validators_url original_url)); [discriminate|].
  destruct (truthy custom_code) eqn:Ht.
  - destruct (truthy_Some_ne custom_code Ht) as (c & -> & Hc). simpl.
    destruct (first_url_with_code db c); [discriminate|].
    intros [= H].
    destruct (add_url db now original_url c creator_ip) as [[u0 d0]|e] eqn:Ha;
      simpl in H; [|discriminate].
    injection H as -> -> ->.
    apply add_url_Returned in Ha as (_ & _ & _ & ->). simpl. left. auto.
  - destruct (URLService.generate_unique fuel rand db pos) as [[c p]|] eqn:Hg;
      simpl; [|discriminate].
    intros [= H].
    destruct (add_url db now original_url c creator_ip) as [[u0 d0]|e] eqn:Ha;
      simpl in H; [|discriminate].
    injection H as -> -> ->.
    apply add_url_Returned in Ha as (_ & _ & _ & ->). simpl.
    apply generate_unique_Some in Hg as (i & Hi & -> & -> & _ & Htaken).
    right. split; [reflexivity|]. exists i. auto.
Qed.

Lemma create_short_url_nonempty validators_url fuel rand now db pos
    original_url custom_code creator_ip u db' pos' :
  URLService.create_short_url validators_url fuel rand now db pos original_url
    custom_code creator_ip = Some (Returned (u, db', pos')) ->
  URL.short_code u <> "".
Proof.
  intros H. apply create_short_url_code_cases in H
    as [(Ht & Hc & _)|(_ & i & _ & Hc & _)].
  - destruct (truthy_Some_ne custom_code Ht) as (c & Hc' & Hne). congruence.
  - intros E. pose proof (candidate_length rand pos i) as Hl.
    rewrite <- Hc, E in Hl. discriminate.
Qed.

(** X2. The code of a created link: a custom code that is given and not
    empty is taken as it is, and no random draw is consumed; otherwise (no
    custom code, or the empty string) the link gets the first generated
    candidate that is free, six characters of the alphabet.  Either way the
    code is not empty and was not in the store. *)
Theorem create_short_url_code validators_url fuel rand now db pos
    original_url custom_code creator_ip u db' pos' :
  URLService.create_short_url validators_url fuel rand now db pos original_url
    custom_code creator_ip = Some (Returned (u, db', pos')) ->
  (truthy custom_code = true ->
   custom_code = Some (URL.short_code u) /\ pos' = pos) /\
  (truthy custom_code = false ->
   String.length (URL.short_code u) = 6%nat /\
   Forall (fun c => In c (chars URLService.characters))
          (chars (URL.short_code u)) /\
   exists i, URL.short_code u = candidate rand pos i /\
             pos' = (pos + 6 * S i)%nat /\
             forall j, (j < i)%nat -> In (candidate rand pos j) (codes db)) /\
  URL.short_code u <> "" /\ ~ In (URL.short_code u) (codes db).
Proof.
  intros H.
  pose proof (create_short_url_nonempty _ _ _ _ _ _ _ _ _ _ _ _ H) as Hne.
  pose proof (create_short_url_Returned _ _ _ _ _ _ _ _ _ _ _ _ H)
    as (_ & _ & Hfree & _).
  apply create_short_url_code_cases in H
    as [(Ht & Hc & Hp)|(Ht & i & _ & Hc & Hp & Htaken)].
  - split; [auto|]. split; [congruence|auto].
  - split; [congruence|]. split; [|auto]. intros _.
    split; [rewrite Hc; apply candidate_length|].
    split; [|eauto].
    rewrite Hc. apply generate_short_code_chars.
Qed.

Lemma create_short_url_code_witness :
  exists u db' pos',
    URLService.create_short_url example_validators_url 2 example_rand 5
      aaaaaa_db 0 "https://example.org" (Some "") None
    = Some (Returned (u, db', pos')) /\
    URL.short_code u = "ghijkl" /\
    String.length (URL.short_code u) = 6%nat.
Proof.
  do 3 eexists. split; [vm_compute; reflexivity|]. split; [reflexivity|].
  refine (proj1 (proj1 (proj2 (create_short_url_code example_validators_url 2
                                 example_rand 5 aaaaaa_db 0
                                 "https://example.org" (Some "") None
                                 _ _ _ _)) eq_refl)).
  vm_compute. reflexivity.
Defined.

Lemma api_step_codes_nonempty validators_url ua rand w call :
  Forall (fun c => c <> "") (codes (fst w)) ->
  Forall (fun c => c <> "")
         (codes (fst (api_step validators_url ua rand w call))).
Proof.
  intros Hall.
  destruct call as [fuel now original_url custom request
                   |faults now code request]; simpl.
  - unfold main.create_short_url.
    destruct (main.request_client_host request) as [ip|e]; simpl;
      [|exact Hall].
    destruct (URLService.create_short_url _ _ _ _ _ _ _ _ _)
      as [[[[u db'] pos']|e]|] eqn:Hc; simpl; try exact Hall.
    + pose proof (create_short_url_nonempty _ _ _ _ _ _ _ _ _ _ _ _ Hc).
      apply create_short_url_Returned in Hc as (Hu & _).
      unfold codes in *. rewrite Hu, map_app. apply Forall_app. split;
        [exact Hall|]. repeat constructor. assumption.
    + destruct e; exact Hall.
  - destruct (redirect_url_effect ua faults now (fst w) code request)
      as [-> _]. exact Hall.
Qed.

(** X3. No call writes a row with an empty short code: if no code of the
    store is empty, none is after any sequence of handler calls (an empty
    custom code counting as none). *)
Theorem codes_never_empty validators_url ua rand calls : forall w,
  Forall (fun c => c <> "") (codes (fst w)) ->
  Forall (fun c => c <> "")
         (codes (fst (api_run validators_url ua rand calls w))).
Proof.
  induction calls as [|call calls IH]; intros w Hall; simpl; [exact Hall|].
  apply IH, api_step_codes_nonempty, Hall.
Qed.

Lemma codes_never_empty_witness :
  Forall (fun c => c <> "") (codes example_db) /\
  Forall (fun c => c <> "")
    (codes (fst (api_run example_validators_url example_user_agents_parse
                   example_rand
                   (Shorten 2 1 "https://a.example" (Some "") example_request
                    :: example_calls) (example_db, O)))).
Proof.
  assert (Forall (fun c => c <> "") (codes example_db)) as H
    by (repeat constructor; discriminate).
  split; [exact H|].
  exact (codes_never_empty example_validators_url example_user_agents_parse
           example_rand _ (example_db, O) H).
Defined.

(** ** Create, then look up *)

Lemma find_app_None {A} (P : A -> bool) l1 l2 :
  List.find P l1 = None -> List.find P (l1 ++ l2) = List.find P l2.
Proof.
  induction l1 as [|a l1 IH]; simpl; [reflexivity|].
  destruct (P a); [discriminate|exact IH].
Qed.

Lemma find_app_last_false {A} (P : A -> bool) l a :
  P a = false -> List.find P (l ++ [a]) = List.find P l.
Proof.
  intros Ha. induction l as [|b l IH]; simpl; [now rewrite Ha|].
  destruct (P b); [reflexivity|exact IH].
Qed.

(** X4. Insert, then look up: the row a successful [create_short_url]
    returns is what [get_url_by_code] and [GET /api/urls/{short_code}] return
    for its code right afterwards; the lookup of every other code, and the
    click table, are as they were. *)
Theorem create_then_lookup validators_url fuel rand now db pos original_url
    custom_code creator_ip u db' pos' :
  URLService.create_short_url validators_url fuel rand now db pos original_url
    custom_code creator_ip = Some (Returned (u, db', pos')) ->
  URLService.get_url_by_code db' (URL.short_code u) = Some u /\
  main.get_url_info db' (URL.short_code u) = Returned (main.URLResponse u) /\
  (forall code, code <> URL.short_code u ->
     URLService.get_url_by_code db' code = URLService.get_url_by_code db code) /\
  clicks db' = clicks db.
Proof.
  intros H.
  apply create_short_url_Returned in H as (Hu & Hc & Hfree & _ & _ & Hact).
  assert (URLService.get_url_by_code db' (URL.short_code u) = Some u) as Hget.
  { unfold URLService.get_url_by_code. rewrite Hu, find_app_None.
    - simpl. now rewrite String.eqb_refl, Hact.
    - destruct (List.find _ (urls db)) as [v|] eqn:Hv; [|reflexivity].
      apply find_some in Hv as [Hin Hb]. apply andb_prop in Hb as [Hb _].
      apply String.eqb_eq in Hb. exfalso. apply Hfree. rewrite <- Hb.
      unfold codes. now apply in_map. }
  split; [exact Hget|]. split; [unfold main.get_url_info; now rewrite Hget|].
  split; [|exact Hc].
  intros code Hne. unfold URLService.get_url_by_code. rewrite Hu.
  apply find_app_last_false.
  destruct (String.eqb_spec (URL.short_code u) code); [congruence|reflexivity].
Qed.

Lemma create_then_lookup_witness :
  exists u db' pos',
    URLService.create_short_url example_validators_url 1 example_rand 9
      example_db 0 "https://fastapi.tiangolo.com" (Some "fast")
      (Some "203.0.113.7") = Some (Returned (u, db', pos')) /\
    main.get_url_info db' "fast" = Returned (main.URLResponse u) /\
    main.get_url_info db' "abc123" = main.get_url_info example_db "abc123".
Proof.
  do 3 eexists. split; [vm_compute; reflexivity|].
  pose proof (create_then_lookup example_validators_url 1 example_rand 9
                example_db 0 "https://fastapi.tiangolo.com" (Some "fast")
                (Some "203.0.113.7") _ _ _ eq_refl) as (_ & Hinfo & _).
  split; [exact Hinfo|reflexivity].
Defined.

Lemma first_url_with_code_In db code :
  In code (codes db) -> exists u, first_url_with_code db code = Some u.
Proof.
  intros Hin. destruct (first_url_with_code db code) as [u|] eqn:Hf; [eauto|].
  apply first_url_with_code_None in Hf. contradiction.
Qed.

(** X5. A code that is in the store stays taken: after any further calls of
    the handlers, [POST /shorten] with that custom code and a valid URL is
    answered 400 "Custom code already exists" and writes nothing, whether the
    row of the code is active or not. *)
Theorem custom_code_stays_taken validators_url ua rand calls w code fuel now
    original_url ip agent referer :
  In code (codes (fst w)) -> code <> "" ->
  validators_url original_url = true ->
  let w' := api_run validators_url ua rand calls w in
  main.create_short_url validators_url fuel rand now (fst w') (snd w')
    original_url (Some code) (mkRequest (Some ip) agent referer)
  = Some (Raised (HTTPException 400 "Custom code already exists"),
          fst w', snd w').
Proof.
  intros Hin Hne Hvalid w'.
  assert (exists l, codes (fst w') = (codes (fst w) ++ l)%list) as [l Hl].
  { subst w'. clear Hin. revert w.
    induction calls as [|call calls IH]; intros w; simpl.
    - exists []. now rewrite app_nil_r.
    - destruct (IH (api_step validators_url ua rand w call)) as [l Hl].
      rewrite Hl.
      destruct (api_step_codes validators_url ua rand w call)
        as [->|(c & -> & _)]; [eauto|].
      exists (c :: l). now rewrite <- app_assoc. }
  assert (In code (codes (fst w'))) as Hin'
    by (rewrite Hl; apply in_or_app; now left).
  destruct (first_url_with_code_In _ _ Hin') as [u Hu].
  unfold main.create_short_url, URLService.create_short_url. simpl.
  rewrite Hvalid. simpl.
  destruct (String.eqb_spec code ""); [contradiction|]. simpl.
  rewrite Hu. reflexivity.
Qed.

Lemma custom_code_stays_taken_witness :
  In "abc123" (codes example_db) /\
  main.create_short_url example_validators_url 1 example_rand 30
    (fst (api_run example_validators_url example_user_agents_parse
            example_rand example_calls (example_db, O)))
    (snd (api_run example_validators_url example_user_agents_parse
            example_rand example_calls (example_db, O)))
    "https://new.example" (Some "abc123")
    (mkRequest (Some "198.51.100.2") None None)
  = Some (Raised (HTTPException 400 "Custom code already exists"),
          fst (api_run example_validators_url example_user_agents_parse
                 example_rand example_calls (example_db, O)),
          snd (api_run example_validators_url example_user_agents_parse
                 example_rand example_calls (example_db, O))).
Proof.
  assert (In "abc123" (codes example_db)) as Hin by (now left).
  split; [exact Hin|].
  refine (custom_code_stays_taken example_validators_url
            example_user_agents_parse example_rand example_calls
            (example_db, O) "abc123" 1 30 "https://new.example"
            "198.51.100.2" None None Hin _ eq_refl).
  discriminate.
Defined.


(** ** What a redirect writes *)

(** The store after a redirect: as before, or with one more click for the
    code and, unless the counter commit fails, the counter of the first row
    of the code incremented. *)
Lemma redirect_url_store ua faults now db code request :
  let db' := snd (main.redirect_url ua faults now db code request) in
  db' = db \/
  exists click,
    Click.short_code click = code /\
    clicks db' = (clicks db ++ [click])%list /\
    In code (codes db) /\
    ((count_commit_fails faults = true /\ urls db' = urls db) \/
     (count_commit_fails faults = false /\
      urls db' = URLService.bump_first code (urls db))).
Proof.
  cbv zeta. rewrite redirect_url_snd.
  destruct (URLService.get_url_by_code db code) as [u|] eqn:Hu; [|auto].
  destruct (get_url_by_code_first_Some db code u Hu) as [v Hv].
  assert (In code (codes db)) as Hcode.
  { apply first_url_with_code_Some in Hv as [Hin <-]. unfold codes.
    now apply in_map. }
  destruct (main.request_client_host request) as [ip|e]; [|simpl; auto].
  unfold AnalyticsService.track_click.
  destruct (ua _) as [[family version]|e]; [|simpl; auto].
  destruct (click_commit_fails faults); [simpl; auto|].
  unfold URLService.increment_click_count.
  change (first_url_with_code (add_click db now code (Some ip)
            (Some (family +:+ " " +:+ version)) (header_referer request)
            (Some "Unknown") (Some "Unknown")) code)
    with (first_url_with_code db code).
  rewrite Hv. right.
  destruct (count_commit_fails faults); simpl;
    (eexists; split; [|split; [reflexivity|split; [exact Hcode|]]];
     [reflexivity|auto]).
Qed.

Lemma in_bump_first code rows v :
  In v (URLService.bump_first code rows) ->
  In v rows \/
  exists u, In u rows /\ URL.short_code u = code /\ v = URLService.bump u.
Proof.
  induction rows as [|a rows IH]; simpl; [tauto|].
  destruct (String.eqb_spec (URL.short_code a) code) as [E|E]; simpl.
  - intros [<-|Hin]; [right; eauto|auto].
  - intros [<-|Hin]; [auto|].
    destruct (IH Hin) as [|(u & Hu & Hc & ->)]; [auto|right; eauto].
Qed.

Lemma in_bump_first_NoDup code rows v :
  NoDup (map URL.short_code rows) ->
  In v (URLService.bump_first code rows) ->
  (URL.short_code v <> code /\ In v rows) \/
  exists u, In u rows /\ URL.short_code u = code /\ v = URLService.bump u.
Proof.
  induction rows as [|a rows IH]; simpl; [tauto|].
  intros Hnd. apply NoDup_cons in Hnd as [Ha Hnd].
  destruct (String.eqb_spec (URL.short_code a) code) as [E|E]; simpl.
  - intros [<-|Hin]; [right; eauto|]. left. split; [|auto].
    intros Hv. apply Ha. apply list_elem_of_In. rewrite E, <- Hv.
    now apply in_map.
  - intros [<-|Hin]; [auto|].
    destruct (IH Hnd Hin) as [[? ?]|(u & Hu & Hc & ->)]; [auto|right; eauto].
Qed.

Lemma clicks_of_snoc db db' click code :
  clicks db' = (clicks db ++ [click])%list ->
  length (clicks_of db' code)
  = (length (clicks_of db code)
     + if String.eqb (Click.short_code click) code then 1 else 0)%nat.
Proof.
  intros H. unfold clicks_of. rewrite H, List.filter_app, length_app. simpl.
  destruct (String.eqb (Click.short_code click) code); reflexivity.
Qed.

Lemma api_step_counters_bounded validators_url ua rand w call :
  counters_bounded (fst w) ->
  counters_bounded (fst (api_step validators_url ua rand w call)).
Proof.
  intros Hb.
  destruct call as [fuel now original_url custom request
                   |faults now code request]; simpl.
  - unfold main.create_short_url.
    destruct (main.request_client_host request) as [ip|e]; simpl; [|exact Hb].
    destruct (URLService.create_short_url _ _ _ _ _ _ _ _ _)
      as [[[[u db'] pos']|e]|] eqn:Hc; simpl; try exact Hb.
    + apply create_short_url_Returned in Hc as (Hu & Hcl & _ & _ & Hcount & _).
      intros v Hv. unfold clicks_of. rewrite Hcl. rewrite Hu in Hv.
      apply in_app_or in Hv as [Hv|[<-|[]]]; [now apply Hb|].
      rewrite Hcount. lia.
    + destruct e; exact Hb.
  - destruct (redirect_url_store ua faults now (fst w) code request)
      as [->|(click & Hc & Hcl & _ & Hurls)]; [exact Hb|].
    intros v Hv. rewrite (clicks_of_snoc _ _ click _ Hcl).
    destruct Hurls as [[_ Hu]|[_ Hu]]; rewrite Hu in Hv.
    + specialize (Hb v Hv). lia.
    + apply in_bump_first in Hv as [Hv|(u & Hu' & Huc & ->)].
      * specialize (Hb v Hv). lia.
      * specialize (Hb u Hu'). cbn [URLService.bump URL.short_code
                                     URL.click_count].
        rewrite Huc in Hb |- *. rewrite Hc, String.eqb_refl. lia.
Qed.

(** X7. A counter never runs ahead of the clicks: if every row's
    [click_count] is between 0 and the number of clicks stored for its code,
    that is still so after any sequence of handler calls, whichever commits
    fail on the way. *)
Theorem counters_stay_bounded validators_url ua rand calls : forall w,
  counters_bounded (fst w) ->
  counters_bounded (fst (api_run validators_url ua rand calls w)).
Proof.
  induction calls as [|call calls IH]; intros w Hb; simpl; [exact Hb|].
  apply IH, api_step_counters_bounded, Hb.
Qed.

Lemma counters_stay_bounded_witness :
  counters_bounded empty_db /\
  counters_bounded
    (fst (api_run example_validators_url example_user_agents_parse
            example_rand
            (example_calls ++ [Redirect (mkFaults false true) 14 "mine"
                                 example_request])%list (empty_db, O))).
Proof.
  assert (counters_bounded empty_db) as H by (intros u []).
  split; [exact H|].
  exact (counters_stay_bounded example_validators_url
           example_user_agents_parse example_rand _ (empty_db, O) H).
Defined.

Lemma api_step_counters_match validators_url ua rand w call :
  match call with
  | Redirect faults _ _ _ => count_commit_fails faults = false
  | Shorten _ _ _ _ _ => True
  end ->
  NoDup (codes (fst w)) -> clicks_known (fst w) ->
  (forall u, In u (urls (fst w)) ->
     URL.click_count u
     = Z.of_nat (length (clicks_of (fst w) (URL.short_code u)))) ->
  forall u, In u (urls (fst (api_step validators_url ua rand w call))) ->
    URL.click_count u
    = Z.of_nat (length (clicks_of (fst (api_step validators_url ua rand w call))
                          (URL.short_code u))).
Proof.
  intros Hok Hnd Hk Hm.
  destruct call as [fuel now original_url custom request
                   |faults now code request]; simpl.
  - unfold main.create_short_url.
    destruct (main.request_client_host request) as [ip|e]; simpl; [|exact Hm].
    destruct (URLService.create_short_url _ _ _ _ _ _ _ _ _)
      as [[[[u db'] pos']|e]|] eqn:Hc; simpl; try exact Hm.
    + apply create_short_url_Returned in Hc
        as (Hu & Hcl & Hfree & _ & Hcount & _).
      intros v Hv. rewrite Hu in Hv.
      assert (forall c, clicks_of db' c = clicks_of (fst w) c) as Hsame
        by (intros c; unfold clicks_of; now rewrite Hcl).
      rewrite Hsame.
      apply in_app_or in Hv as [Hv|[<-|[]]]; [now apply Hm|].
      rewrite Hcount, (clicks_of_unknown _ _ Hk Hfree). reflexivity.
    + destruct e; exact Hm.
  - destruct (redirect_url_store ua faults now (fst w) code request)
      as [->|(click & Hc & Hcl & _ & Hurls)]; [exact Hm|].
    destruct Hurls as [[Hf _]|[_ Hu]]; [congruence|].
    intros v Hv. rewrite Hu in Hv. rewrite (clicks_of_snoc _ _ click _ Hcl).
    apply (in_bump_first_NoDup _ _ _ Hnd) in Hv
      as [[Hne Hv]|(u & Hu' & Huc & ->)].
    + rewrite (Hm v Hv), Hc.
      destruct (String.eqb_spec code (URL.short_code v)); [congruence|lia].
    + cbn [URLService.bump URL.short_code URL.click_count].
      rewrite (Hm u Hu'), Huc, Hc, String.eqb_refl. lia.
Qed.

(** X8. While no counter commit fails, the counters are exact: after any
    sequence of handler calls from the empty store, every row's
    [click_count] is the number of clicks stored for its code, which is the
    [total_clicks] of its summary. *)
Theorem counters_match_clicks validators_url ua rand calls now :
  counters_commit calls ->
  let db := fst (api_run validators_url ua rand calls (empty_db, O)) in
  forall u, In u (urls db) ->
    URL.click_count u
    = Z.of_nat (AnalyticsService.total_clicks
                  (AnalyticsService.get_analytics now db (URL.short_code u))).
Proof.
  intros Hok db u Hu. rewrite get_analytics_total_clicks. revert u Hu.
  subst db.
  assert (forall w,
    NoDup (codes (fst w)) -> clicks_known (fst w) ->
    (forall u, In u (urls (fst w)) ->
       URL.click_count u
       = Z.of_nat (length (clicks_of (fst w) (URL.short_code u)))) ->
    forall u, In u (urls (fst (api_run validators_url ua rand calls w))) ->
      URL.click_count u
      = Z.of_nat (length (clicks_of
                            (fst (api_run validators_url ua rand calls w))
                            (URL.short_code u)))) as K.
  { induction calls as [|call calls IH]; intros w Hnd Hk Hm; simpl;
      [exact Hm|].
    apply Forall_cons in Hok as [Hcall Hok].
    apply (IH Hok).
    - now apply api_step_NoDup.
    - now apply api_step_clicks_known.
    - now apply api_step_counters_match. }
  apply K; simpl; [constructor|intros c []|intros u []].
Qed.

Lemma counters_match_clicks_witness :
  counters_commit (example_calls
                   ++ [Redirect no_faults 14 "mine" example_request;
                       Redirect (mkFaults true false) 15 "mine"
                         example_request])%list /\
  map (fun u => (URL.short_code u, URL.click_count u))
    (urls (fst (api_run example_validators_url example_user_agents_parse
                  example_rand
                  (example_calls
                   ++ [Redirect no_faults 14 "mine" example_request;
                       Redirect (mkFaults true false) 15 "mine"
                         example_request])%list (empty_db, O))))
  = [("abc123", 1); ("aaaaaa", 0); ("mine", 1)] /\
  forall u,
    In u (urls (fst (api_run example_validators_url example_user_agents_parse
                       example_rand
                       (example_calls
                        ++ [Redirect no_faults 14 "mine" example_request;
                            Redirect (mkFaults true false) 15 "mine"
                              example_request])%list (empty_db, O)))) ->
    URL.click_count u
    = Z.of_nat
        (AnalyticsService.total_clicks
           (AnalyticsService.get_analytics 16
              (fst (api_run example_validators_url example_user_agents_parse
                      example_rand
                      (example_calls
                       ++ [Redirect no_faults 14 "mine" example_request;
                           Redirect (mkFaults true false) 15 "mine"
                             example_request])%list (empty_db, O)))
              (URL.short_code u))).
Proof.
  assert (counters_commit
            (example_calls
             ++ [Redirect no_faults 14 "mine" example_request;
                 Redirect (mkFaults true false) 15 "mine" example_request])%list)
    as H by (repeat constructor).
  split; [exact H|]. split; [vm_compute; reflexivity|].
  exact (counters_match_clicks example_validators_url
           example_user_agents_parse example_rand _ 16 H).
Defined.

Lemma get_analytics_ext now db1 db2 code :
  clicks_of db1 code = clicks_of db2 code ->
  AnalyticsService.get_analytics now db1 code
  = AnalyticsService.get_analytics now db2 code.
Proof.
  unfold clicks_of, AnalyticsService.get_analytics. intros ->. reflexivity.
Qed.

Lemma get_url_by_code_bump_other code code' rows :
  code' <> code ->
  List.find (fun u => String.eqb (URL.short_code u) code'
                      && Bool.eqb (URL.is_active u) true)
            (URLService.bump_first code rows)
  = List.find (fun u => String.eqb (URL.short_code u) code'
                        && Bool.eqb (URL.is_active u) true) rows.
Proof.
  intros Hne. induction rows as [|a rows IH]; simpl; [reflexivity|].
  destruct (String.eqb_spec (URL.short_code a) code) as [E|E]; simpl.
  - destruct (String.eqb_spec (URL.short_code a) code'); [congruence|].
    reflexivity.
  - now rewrite IH.
Qed.

(** X9. A redirect touches one code only: the lookup, the stored clicks and
    the whole analytics summary of every other code are the same before
    and after it, whatever fails while it records. *)
Theorem redirect_url_other_codes ua faults now db code request code' :
  code' <> code ->
  let db' := snd (main.redirect_url ua faults now db code request) in
  URLService.get_url_by_code db' code' = URLService.get_url_by_code db code' /\
  clicks_of db' code' = clicks_of db code' /\
  forall now',
    AnalyticsService.get_analytics now' db' code'
    = AnalyticsService.get_analytics now' db code'.
Proof.
  intros Hne db'. subst db'.
  destruct (redirect_url_store ua faults now db code request)
    as [E|(click & Hc & Hcl & _ & Hurls)].
  - rewrite E. auto.
  - set (db' := snd (main.redirect_url ua faults now db code request)) in *.
    assert (clicks_of db' code' = clicks_of db code') as Hsame.
    { unfold clicks_of. rewrite Hcl, List.filter_app. simpl. rewrite Hc.
      destruct (String.eqb_spec code code'); [congruence|].
      apply app_nil_r. }
    split; [|split; [exact Hsame|intros; now apply get_analytics_ext]].
    unfold URLService.get_url_by_code.
    destruct Hurls as [[_ ->]|[_ ->]]; [reflexivity|].
    now apply get_url_by_code_bump_other.
Qed.

Lemma redirect_url_other_codes_witness :
  "abc123" <> "py" /\
  forall now',
    AnalyticsService.get_analytics now'
      (snd (main.redirect_url example_user_agents_parse no_faults 6
              {| urls := urls live_db ++ urls retired_db;
                 clicks := clicks retired_db |} "py" example_request))
      "abc123"
    = AnalyticsService.get_analytics now'
        {| urls := urls live_db ++ urls retired_db;
           clicks := clicks retired_db |} "abc123".
Proof.
  assert ("abc123" <> "py") as H by discriminate.
  split; [exact H|].
  exact (proj2 (proj2 (redirect_url_other_codes example_user_agents_parse
                         no_faults 6 _ "py" example_request "abc123" H))).
Defined.

(** X10. What is lost when recording fails, for a redirect that finds its
    row.  If the request has no peer address, the parser raises, or the
    commit of the click fails, nothing is written.  If only the commit of
    the counter fails, the click stays stored and the counter is not
    incremented: the summary then counts one click more than before while
    the row's [click_count] is as before. *)
Theorem redirect_url_partial_write ua faults now db code request u ip
    browser :
  URLService.get_url_by_code db code = Some u ->
  let db' := snd (main.redirect_url ua faults now db code request) in
  ((client_host request = None \/
    (exists e, ua (default "" (header_user_agent request)) = Raised e) \/
    click_commit_fails faults = true) -> db' = db) /\
  (client_host request = Some ip ->
   ua (default "" (header_user_agent request)) = Returned browser ->
   click_commit_fails faults = false -> count_commit_fails faults = true ->
   URLService.get_url_by_code db' code = Some u /\
   (forall now',
      AnalyticsService.total_clicks
        (AnalyticsService.get_analytics now' db' code)
      = S (AnalyticsService.total_clicks
             (AnalyticsService.get_analytics now' db code))) /\
   exists click,
     clicks db' = (clicks db ++ [click])%list /\
     Click.short_code click = code /\ Click.clicked_at click = now /\
     Click.ip_address click = Some ip /\
     Click.user_agent click = Some (fst browser +:+ " " +:+ snd browser) /\
     Click.referer click = header_referer request /\
     Click.country click = Some "Unknown" /\
     Click.city click = Some "Unknown").
Proof.
  intros Hu db'. subst db'. rewrite redirect_url_snd, Hu.
  destruct (get_url_by_code_first_Some db code u Hu) as [v Hv].
  unfold main.request_client_host, AnalyticsService.track_click.
  split.
  - intros [Hc|[[e He]|Hf]].
    + rewrite Hc. reflexivity.
    + destruct (client_host request); [|reflexivity]. rewrite He. reflexivity.
    + destruct (client_host request); [|reflexivity].
      destruct (ua _) as [[family version]|e]; [|reflexivity].
      rewrite Hf. reflexivity.
  - intros Hc Hb Hf1 Hf2. rewrite Hc, Hb. destruct browser as [family version].
    rewrite Hf1. unfold URLService.increment_click_count.
    change (first_url_with_code (add_click db now code (Some ip)
              (Some (family +:+ " " +:+ version)) (header_referer request)
              (Some "Unknown") (Some "Unknown")) code)
      with (first_url_with_code db code).
    rewrite Hv, Hf2. cbn [snd fst].
    split; [exact Hu|]. split.
    + intros now'. rewrite !get_analytics_total_clicks.
      unfold clicks_of, add_click. cbn [clicks].
      rewrite List.filter_app, length_app. simpl.
      rewrite String.eqb_refl. simpl. lia.
    + eexists. split; [reflexivity|]. cbn. auto 10.
Qed.

Lemma redirect_url_partial_write_witness :
  URLService.get_url_by_code live_db "py"
  = Some (URL.mk 1 "https://python.org" "py" 0 0 true None) /\
  URLService.get_url_by_code
    (snd (main.redirect_url example_user_agents_parse (mkFaults false true) 8
            live_db "py" example_request)) "py"
  = Some (URL.mk 1 "https://python.org" "py" 0 0 true None) /\
  AnalyticsService.total_clicks
    (AnalyticsService.get_analytics 9
       (snd (main.redirect_url example_user_agents_parse (mkFaults false true)
               8 live_db "py" example_request)) "py") = 1%nat.
Proof.
  split; [reflexivity|].
  pose proof (proj2 (redirect_url_partial_write example_user_agents_parse
                       (mkFaults false true) 8 live_db "py" example_request
                       _ "203.0.113.7" ("Firefox", "128.0") eq_refl)
                eq_refl eq_refl eq_refl eq_refl) as (Hrow & Htotal & _).
  split; [exact Hrow|]. rewrite Htotal. reflexivity.
Defined.

(** ** More of the summary *)

(** The click a redirect writes, when it writes one. *)
Lemma redirect_url_click ua faults now db code request :
  let db' := snd (main.redirect_url ua faults now db code request) in
  clicks db' = clicks db \/
  exists click,
    clicks db' = (clicks db ++ [click])%list /\
    Click.country click = Some "Unknown" /\ Click.city click = Some "Unknown".
Proof.
  cbv zeta. rewrite redirect_url_snd.
  destruct (URLService.get_url_by_code db code) as [u|]; [|auto].
  destruct (main.request_client_host request) as [ip|e]; [|simpl; auto].
  unfold AnalyticsService.track_click.
  destruct (ua _) as [[family version]|e]; [|simpl; auto].
  destruct (click_commit_fails faults); [simpl; auto|].
  unfold URLService.increment_click_count.
  destruct (first_url_with_code _ code); [destruct (count_commit_fails faults)|];
    simpl; right; eexists; split; try reflexivity; auto.
Qed.

Lemma api_run_countries validators_url ua rand calls : forall w,
  Forall (fun c => Click.country c = Some "Unknown") (clicks (fst w)) ->
  Forall (fun c => Click.country c = Some "Unknown")
         (clicks (fst (api_run validators_url ua rand calls w))).
Proof.
  induction calls as [|call calls IH]; intros w Hall; simpl; [exact Hall|].
  apply IH.
  destruct call as [fuel now original_url custom request
                   |faults now code request]; simpl.
  - unfold main.create_short_url.
    destruct (main.request_client_host request) as [ip|e]; simpl;
      [|exact Hall].
    destruct (URLService.create_short_url _ _ _ _ _ _ _ _ _)
      as [[[[u db'] pos']|e]|] eqn:Hc; simpl; try exact Hall.
    + apply create_short_url_Returned in Hc as (_ & -> & _). exact Hall.
    + destruct e; exact Hall.
  - destruct (redirect_url_click ua faults now (fst w) code request)
      as [->|(click & -> & Hc & _)]; [exact Hall|].
    apply Forall_app. split; [exact Hall|]. repeat constructor. exact Hc.
Qed.

Lemma counter_of_list_replicate x n :
  Counter.of_list (replicate (S n) x) = [(x, S n)].
Proof.
  unfold Counter.of_list. simpl.
  assert (forall k m, fold_left (fun c k0 => Counter.add k0 c) (replicate k x)
                        [(x, m)] = [(x, (m + k)%nat)]) as K.
  { induction k as [|k IH]; intros m; simpl.
    - now rewrite Nat.add_0_r.
    - rewrite String.eqb_refl, IH. do 2 f_equal. lia. }
  rewrite K. reflexivity.
Qed.

Lemma truthy_values_country_unknown events :
  Forall (fun c => Click.country c = Some "Unknown") events ->
  AnalyticsService.truthy_values Click.country events
  = replicate (length events) "Unknown".
Proof.
  induction 1 as [|c events Hc _ IH]; [reflexivity|].
  rewrite truthy_values_cons, Hc.
  destruct (decide ("Unknown" = "")); [discriminate|]. simpl. now rewrite IH.
Qed.

(** X11. Clicks are recorded with the placeholder country only, so in any
    store the handlers build from the empty one the country breakdown of a
    code is empty when it has no clicks and otherwise the single entry
    "Unknown" with all of its clicks. *)
Theorem top_countries_unknown validators_url ua rand calls now code :
  let db := fst (api_run validators_url ua rand calls (empty_db, O)) in
  let summary := AnalyticsService.get_analytics now db code in
  AnalyticsService.top_countries summary
  = match AnalyticsService.total_clicks summary with
    | O => []
    | S n => [("Unknown", S n)]
    end.
Proof.
  intros db summary.
  assert (Forall (fun c => Click.country c = Some "Unknown")
                 (clicks_of db code)) as Hall.
  { pose proof (api_run_countries validators_url ua rand calls (empty_db, O)
                  (List.Forall_nil _)) as H.
    fold db in H. unfold clicks_of. rewrite Forall_forall in *.
    intros c Hc. apply list_elem_of_In, filter_In in Hc as [Hc _].
    apply H. now apply list_elem_of_In. }
  apply truthy_values_country_unknown in Hall.
  subst summary. unfold AnalyticsService.get_analytics.
  fold (clicks_of db code). destruct (clicks_of db code) as [|c l] eqn:E;
    [reflexivity|].
  cbn [AnalyticsService.top_countries AnalyticsService.total_clicks].
  rewrite Hall. cbn [length]. rewrite counter_of_list_replicate. reflexivity.
Qed.

Lemma length_remove_dups_le (l : list string) :
  (length (remove_dups l) <= length l)%nat.
Proof.
  induction l as [|x l IH]; simpl; [lia|].
  destruct (decide_rel elem_of x l); simpl; lia.
Qed.

Lemma length_truthy_values (f : Click.t -> option string) events :
  (length (AnalyticsService.truthy_values f events) <= length events)%nat.
Proof.
  induction events as [|c events IH]; [reflexivity|].
  rewrite truthy_values_cons.
  destruct (f c) as [v|]; [destruct (decide (v = ""))|]; simpl; lia.
Qed.

(** X12. [unique_ips] is the number of distinct non-empty addresses among
    the clicks of the code; it never exceeds [total_clicks], and it is 0
    exactly when no click of the code has a non-empty address. *)
Theorem unique_ips_distinct now db code :
  let summary := AnalyticsService.get_analytics now db code in
  let ips := AnalyticsService.truthy_values Click.ip_address
               (clicks_of db code) in
  AnalyticsService.unique_ips summary = length (remove_dups ips) /\
  (AnalyticsService.unique_ips summary
   <= AnalyticsService.total_clicks summary)%nat /\
  (AnalyticsService.unique_ips summary = O <-> ips = []).
Proof.
  intros summary ips.
  assert (AnalyticsService.unique_ips summary = length (remove_dups ips))
    as Hsize.
  { subst summary ips. unfold AnalyticsService.get_analytics.
    fold (clicks_of db code). destruct (clicks_of db code) as [|c l];
      [reflexivity|].
    cbn [AnalyticsService.unique_ips].
    set (ips := AnalyticsService.truthy_values Click.ip_address (c :: l)).
    rewrite <- (size_list_to_set (C:=gset string) (remove_dups ips))
      by apply NoDup_remove_dups.
    f_equal. apply set_eq. intros x.
    now rewrite !elem_of_list_to_set, elem_of_remove_dups. }
  split; [exact Hsize|]. split.
  - rewrite Hsize. subst summary. rewrite get_analytics_total_clicks.
    etransitivity; [apply length_remove_dups_le|apply length_truthy_values].
  - rewrite Hsize. split.
    + intros H. destruct ips as [|x l] eqn:E; [reflexivity|].
      assert (x ∈ remove_dups (x :: l)) as Hin
        by (apply elem_of_remove_dups; left).
      destruct (remove_dups (x :: l)); [|discriminate].
      apply elem_of_nil in Hin. contradiction.
    + intros ->. reflexivity.
Qed.

(** X14. A link that was just created has the zero summary: in any store
    the handlers build from the empty one, the analytics handler answers a
    new code with no clicks, no visitors and empty breakdowns. *)
Theorem new_link_zero_summary validators_url ua rand calls fuel now0
    original_url custom_code creator_ip u db1 pos1 now :
  let w := api_run validators_url ua rand calls (empty_db, O) in
  URLService.create_short_url validators_url fuel rand now0 (fst w) (snd w)
    original_url custom_code creator_ip = Some (Returned (u, db1, pos1)) ->
  main.get_analytics now db1 (URL.short_code u)
  = Returned (main.AnalyticsResponse
                (AnalyticsService.mkAnalytics 0 0 [] [] [] [])).
Proof.
  intros w Hcreate.
  pose proof (api_run_clicks_known validators_url ua rand calls (empty_db, O))
    as Hk. fold w in Hk.
  pose proof (create_short_url_Returned _ _ _ _ _ _ _ _ _ _ _ _ Hcreate)
    as (Hurls & Hclicks & Hfree & _ & _ & Hact).
  assert (URLService.get_url_by_code db1 (URL.short_code u) = Some u) as Hget.
  { apply get_url_by_code_first; [|exact Hact].
    eapply first_url_with_code_app_new; [exact Hurls|exact Hfree]. }
  assert (clicks_of db1 (URL.short_code u) = []) as Hnone.
  { transitivity (clicks_of (fst w) (URL.short_code u)).
    - unfold clicks_of. now rewrite Hclicks.
    - apply clicks_of_unknown; [|exact Hfree]. apply Hk. intros c []. }
  unfold main.get_analytics. rewrite Hget.
  unfold AnalyticsService.get_analytics. fold (clicks_of db1 (URL.short_code u)).
  rewrite Hnone. reflexivity.
Qed.

Lemma new_link_zero_summary_witness :
  exists u db1 pos1,
    URLService.create_short_url example_validators_url 2 example_rand 14
      (fst (api_run example_validators_url example_user_agents_parse
              example_rand example_calls (empty_db, O)))
      (snd (api_run example_validators_url example_user_agents_parse
              example_rand example_calls (empty_db, O)))
      "https://stackoverflow.com" None (Some "203.0.113.7")
    = Some (Returned (u, db1, pos1)) /\
    main.get_analytics 15 db1 (URL.short_code u)
    = Returned (main.AnalyticsResponse
                  (AnalyticsService.mkAnalytics 0 0 [] [] [] [])).
Proof.
  do 3 eexists. split; [vm_compute; reflexivity|].
  refine (new_link_zero_summary example_validators_url
            example_user_agents_parse example_rand example_calls 2 14
            "https://stackoverflow.com" None (Some "203.0.113.7") _ _ _ 15 _).
  vm_compute. reflexivity.
Defined.

(** ** The daily history *)

(** The count a date has after the events [l] were added to the dict. *)
Lemma history_fold_lookup l : forall (h : gmap Z nat) d,
  fold_left AnalyticsService.history_add l h !! d
  = match length (List.filter
                    (fun c => (Click.clicked_at c / AnalyticsService.day =? d)%Z)
                    l) with
    | O => h !! d
    | S k => Some (default O (h !! d) + S k)%nat
    end.
Proof.
  induction l as [|c l IH]; intros h d; simpl; [reflexivity|].
  rewrite IH. unfold AnalyticsService.history_add.
  destruct (Z.eqb_spec (Click.clicked_at c / AnalyticsService.day) d) as [->|Hne].
  - rewrite lookup_insert_eq. simpl.
    destruct (length (List.filter _ l)); simpl; f_equal; lia.
  - rewrite lookup_insert_ne by exact Hne. reflexivity.
Qed.

Lemma filter_andb {A} (f g : A -> bool) l :
  List.filter (fun x => f x && g x) l = List.filter g (List.filter f l).
Proof.
  induction l as [|a l IH]; simpl; [reflexivity|].
  destruct (f a); simpl; [destruct (g a)|]; now rewrite IH.
Qed.

Lemma click_history_eq now db code :
  AnalyticsService.click_history (AnalyticsService.get_analytics now db code)
  = merge_sort AnalyticsService.date_le
      (map_to_list
         (fold_left AnalyticsService.history_add
            (List.filter
               (fun c => (now - 30 * AnalyticsService.day
                          <=? Click.clicked_at c)%Z) (clicks_of db code))
            (∅ : gmap Z nat))).
Proof.
  unfold AnalyticsService.get_analytics. fold (clicks_of db code).
  destruct (clicks_of db code); [|reflexivity].
  simpl. rewrite map_to_list_empty. reflexivity.
Qed.

#[local] Instance date_le_transitive : Transitive AnalyticsService.date_le.
Proof. intros a b c. unfold AnalyticsService.date_le. lia. Qed.

#[local] Instance date_le_total : Total AnalyticsService.date_le.
Proof. intros a b. unfold AnalyticsService.date_le. lia. Qed.

(** X13. The daily history of a summary lists exactly the days on which
    the code has clicks in the last thirty days, each with the number of
    those clicks (at least one: days without clicks are left out), each day
    once, in ascending order of the days. *)
Theorem click_history_days now db code :
  let history :=
    AnalyticsService.click_history
      (AnalyticsService.get_analytics now db code) in
  (forall d n,
     (d, n) ∈ history <->
     n = length (recent_on now (clicks_of db code) d) /\ (1 <= n)%nat) /\
  (forall (i j : nat) a b, (i < j)%nat ->
     history !! i = Some a -> history !! j = Some b -> (fst a < fst b)%Z).
Proof.
  intros history. subst history. rewrite click_history_eq.
  set (recent := List.filter _ (clicks_of db code)).
  set (h := fold_left AnalyticsService.history_add recent ∅).
  assert (forall d n, h !! d = Some n <->
            n = length (recent_on now (clicks_of db code) d) /\ (1 <= n)%nat)
    as Hlookup.
  { intros d n. subst h. rewrite history_fold_lookup, lookup_empty.
    unfold recent_on. rewrite filter_andb. fold recent.
    destruct (length (List.filter _ recent)); simpl.
    - split; [discriminate|lia].
    - split; [intros [= <-]; lia|intros [-> _]; reflexivity]. }
  split.
  - intros d n. rewrite merge_sort_Permutation, elem_of_map_to_list.
    apply Hlookup.
  - intros i j a b Hij Hi Hj.
    set (l := merge_sort AnalyticsService.date_le (map_to_list h)) in *.
    assert (StronglySorted AnalyticsService.date_le l) as Hsorted
      by (apply StronglySorted_merge_sort; apply _).
    assert (NoDup (map fst l)) as Hnd.
    { subst l. change map with (@fmap list _).
      rewrite merge_sort_Permutation. apply NoDup_fst_map_to_list. }
    assert (fst a <= fst b)%Z as Hle.
    { rewrite <- (take_drop_middle l j b Hj) in Hsorted.
      apply (StronglySorted_app_1_elem_of _ _ _ a b Hsorted); [|left].
      apply list_elem_of_lookup. exists i. rewrite lookup_take_lt; assumption. }
    assert (fst a <> fst b); [|lia].
    intros E. apply (Nat.lt_neq _ _ Hij).
    apply (NoDup_lookup (map fst l) i j (fst a) Hnd).
    + change map with (@fmap list _). now rewrite list_lookup_fmap, Hi.
    + change map with (@fmap list _). now rewrite list_lookup_fmap, Hj, E.
Qed.

Example click_history_example :
  AnalyticsService.click_history
    (AnalyticsService.get_analytics (40 * AnalyticsService.day)
       {| urls := [];
          clicks :=
            [Click.mk 1 "x" (39 * 86400 + 5) None None None None None;
             Click.mk 2 "x" (12 * 86400) None None None None None;
             Click.mk 3 "x" (5 * 86400) None None None None None;
             Click.mk 4 "x" (39 * 86400 + 70000) None None None None None;
             Click.mk 5 "y" (39 * 86400) None None None None None] |} "x")
  = [(12, 1%nat); (39, 2%nat)].
Proof. vm_compute. reflexivity. Qed.

(** ** More of the rate limiter *)

Lemma check_memory_other_client self a b t window_start m :
  a <> b ->
  stored (snd (RateLimiter._check_memory_rate_limit self a t window_start m)) b
  = stored self b.
Proof.
  intros Hne. destruct (RateLimiter.memory_store self) as [store|] eqn:Hs.
  - rewrite (check_memory_step self store a t window_start m Hs).
    unfold stored. rewrite Hs. simpl. now rewrite lookup_insert_ne.
  - unfold RateLimiter._check_memory_rate_limit. rewrite Hs. reflexivity.
Qed.

(** X15. Clients do not affect each other in the in-memory limiter: after
    any run of checks of one client, the timestamps stored for another
    client are as before, and a check of that other client is decided as if
    the run had not happened. *)
Theorem memory_checks_other_client a b m w ts : forall self t' w' m',
  a <> b -> is_Some (RateLimiter.memory_store self) ->
  let self' := snd (RateLimiter.memory_checks self a m w ts) in
  stored self' b = stored self b /\
  fst (RateLimiter._check_memory_rate_limit self' b t' (t' - w')%Z m')
  = fst (RateLimiter._check_memory_rate_limit self b t' (t' - w')%Z m').
Proof.
  intros self t' w' m' Hne Hs self'.
  assert (stored self' b = stored self b /\
          is_Some (RateLimiter.memory_store self')) as [Hst Hs'].
  { subst self'. revert self Hs.
    induction ts as [|t ts IH]; intros self Hs; simpl; [auto|].
    pose proof (check_memory_other_client self a b t (t - w)%Z m Hne) as Hb.
    destruct (check_memory_stored self a t (t - w)%Z m Hs) as (_ & _ & Hs1).
    destruct (RateLimiter._check_memory_rate_limit self a t (t - w) m)
      as [r self1].
    specialize (IH self1 Hs1).
    destruct (RateLimiter.memory_checks self1 a m w ts) as [rs self2].
    simpl in *. destruct IH as [IH1 IH2]. split; [congruence|exact IH2]. }
  split; [exact Hst|].
  destruct (check_memory_stored self' b t' (t' - w')%Z m' Hs') as (-> & _).
  destruct (check_memory_stored self b t' (t' - w')%Z m' Hs) as (-> & _).
  now rewrite Hst.
Qed.

Lemma memory_checks_other_client_witness :
  "203.0.113.7" <> "198.51.100.2" /\
  fst (RateLimiter._check_memory_rate_limit
         (snd (RateLimiter.memory_checks local_limiter "203.0.113.7" 1 60
                 [100; 101; 102]%Z)) "198.51.100.2" 103 (103 - 60)%Z 1)
  = Returned tt.
Proof.
  assert ("203.0.113.7" <> "198.51.100.2") as H by discriminate.
  split; [exact H|].
  rewrite (proj2 (memory_checks_other_client "203.0.113.7" "198.51.100.2" 1 60
                    [100; 101; 102]%Z local_limiter 103 60 1 H
                    (ex_intro _ _ eq_refl))).
  reflexivity.
Defined.

(** X16. A limit that is not positive admits nothing: with
    [max_requests <= 0] every check of the in-memory path is rejected with
    429, the first one of a client included. *)
Theorem memory_checks_nonpositive_limit client_ip m w ts : forall self,
  (m <= 0)%Z -> is_Some (RateLimiter.memory_store self) ->
  let out := RateLimiter.memory_checks self client_ip m w ts in
  length (fst out) = length ts /\
  Forall (fun r => r = rate_limited m) (fst out).
Proof.
  intros self Hm. revert self.
  induction ts as [|t ts IH]; intros self Hs; simpl; [auto|].
  destruct (check_memory_stored self client_ip t (t - w)%Z m Hs)
    as (Hv & _ & Hs1).
  destruct (RateLimiter._check_memory_rate_limit self client_ip t (t - w) m)
    as [r self1].
  specialize (IH self1 Hs1).
  destruct (RateLimiter.memory_checks self1 client_ip m w ts) as [rs self2].
  simpl in *. destruct IH as [IH1 IH2]. split; [lia|].
  constructor; [|exact IH2].
  rewrite Hv. apply verdict_rate_limited. rewrite length_app. simpl. lia.
Qed.

Lemma memory_checks_nonpositive_limit_witness :
  (0 <= 0)%Z /\
  Forall (fun r => r = rate_limited 0)
    (fst (RateLimiter.memory_checks local_limiter "203.0.113.7" 0 60
            [100; 500]%Z)).
Proof.
  split; [lia|].
  exact (proj2 (memory_checks_nonpositive_limit "203.0.113.7" 0 60
                  [100; 500]%Z local_limiter (Z.le_refl 0)
                  (ex_intro _ _ eq_refl))).
Defined.

Lemma check_memory_keeps_mode self client_ip t window_start m :
  RateLimiter.redis_available
    (snd (RateLimiter._check_memory_rate_limit self client_ip t window_start m))
  = RateLimiter.redis_available self.
Proof.
  unfold RateLimiter._check_memory_rate_limit.
  destruct (RateLimiter.memory_store self) as [store|]; simpl; [|reflexivity].
  destruct (_ <? _)%Z; reflexivity.
Qed.

(** X17. The limiter that [__init__] builds when [redis.from_url] raises
    works on its own store for good: over any sequence of checks it never
    looks at the Redis reply (the outcomes and the final state are the same
    whatever the replies), and a check of a request that has a peer address
    either returns or raises 429; the missing-attribute error of the
    Redis-backed limiter cannot occur. *)
Theorem local_limiter_run e calls (replies : LimiterCall -> outcome (list Z)) :
  let self := RateLimiter.__init__ (Raised e) in
  limiter_run self (map (fun c => with_reply (replies c) c) calls)
  = limiter_run self calls /\
  Forall2 (fun c r =>
             is_Some (client_host (call_request c)) ->
             r = Returned tt \/ r = rate_limited (call_max_requests c))
          calls (fst (limiter_run self calls)).
Proof.
  intros self.
  assert (RateLimiter.redis_available self = false /\
          is_Some (RateLimiter.memory_store self)) as Hmode
    by (split; [reflexivity|eexists; reflexivity]).
  generalize dependent self. intros self. revert self.
  induction calls as [|c calls IH]; intros self [Hr Hs];
    [split; [reflexivity|constructor]|].
  assert (forall q,
    RateLimiter.check_rate_limit self q (call_time c) (call_request c)
      (call_max_requests c) (call_window_seconds c)
    = match client_host (call_request c) with
      | Some ip =>
          RateLimiter._check_memory_rate_limit self ip (call_time c)
            (call_time c - call_window_seconds c)%Z (call_max_requests c)
      | None =>
          (Raised (AttributeError "'NoneType' object has no attribute 'host'"),
           self)
      end) as Hcheck.
  { intros q. unfold RateLimiter.check_rate_limit, main.request_client_host.
    destruct (client_host (call_request c)); [|reflexivity]. now rewrite Hr. }
  cbn [map limiter_run with_reply call_reply call_time call_request
       call_max_requests call_window_seconds].
  rewrite (Hcheck (replies c)), (Hcheck (call_reply c)).
  destruct (client_host (call_request c)) as [ip|] eqn:Hip.
  - pose proof (check_memory_keeps_mode self ip (call_time c)
                  (call_time c - call_window_seconds c)%Z
                  (call_max_requests c)) as Hr1.
    destruct (check_memory_stored self ip (call_time c)
                (call_time c - call_window_seconds c)%Z (call_max_requests c)
                Hs) as (Hv & _ & Hs1).
    destruct (RateLimiter._check_memory_rate_limit self ip (call_time c)
                (call_time c - call_window_seconds c) (call_max_requests c))
      as [r self1].
    cbn [fst snd] in *.
    destruct (IH self1) as [IH1 IH2]; [split; [congruence|exact Hs1]|].
    rewrite IH1. destruct (limiter_run self1 calls) as [rs self2].
    split; [reflexivity|]. cbn [fst] in *. constructor; [|exact IH2].
    intros _. rewrite Hv. unfold verdict. destruct (_ <? _)%Z; auto.
  - destruct (IH self) as [IH1 IH2]; [auto|].
    rewrite IH1. destruct (limiter_run self calls) as [rs self2].
    split; [reflexivity|]. cbn [fst] in *. constructor; [|exact IH2].
    rewrite Hip. intros [? ?]. discriminate.
Qed.

(** ** Listing and inspecting links *)

(** X18. Pages of [GET /api/urls] fit together: a page of [limit] rows
    followed by the page of [limit'] rows that starts where it ends is the
    page of [limit + limit'] rows; a page has [limit] rows unless the table
    ends first; and the page from 0 that is as long as the table lists every
    row, in insertion order. *)
Theorem list_urls_pages skip limit limit' db :
  (main.list_urls skip limit db ++ main.list_urls (skip + limit) limit' db)%list
  = main.list_urls skip (limit + limit') db /\
  length (main.list_urls skip limit db)
  = Nat.min limit (length (urls db) - skip) /\
  main.list_urls 0 (length (urls db)) db = map main.URLResponse (urls db).
Proof.
  unfold main.list_urls. split; [|split].
  - rewrite <- map_app. f_equal.
    rewrite <- (take_take_drop (drop skip (urls db)) limit limit').
    now rewrite drop_drop.
  - now rewrite length_map, length_take, length_drop.
  - now rewrite drop_0, firstn_all.
Qed.

Lemma same_code_same_row db a b :
  NoDup (codes db) -> In a (urls db) -> In b (urls db) ->
  URL.short_code a = URL.short_code b -> a = b.
Proof.
  intros Hnd Ha Hb Hab.
  destruct (first_url_with_code_In db (URL.short_code a)) as [w Hw].
  { unfold codes. now apply in_map. }
  rewrite (unique_row db _ w a Hnd Hw Ha eq_refl).
  rewrite (unique_row db _ w b Hnd Hw Hb (eq_sym Hab)). reflexivity.
Qed.

(** X19. A deactivated link is still listed: in a store with distinct
    codes, every row appears in the full listing of [GET /api/urls] whatever
    its [is_active] flag, while [GET /api/urls/{short_code}] answers 404 for
    the code of a row that is not active. *)
Theorem inactive_listed_not_found db u :
  NoDup (codes db) -> In u (urls db) ->
  In (main.URLResponse u) (main.list_urls 0 (length (urls db)) db) /\
  (URL.is_active u = false ->
   main.get_url_info db (URL.short_code u) = Raised not_found).
Proof.
  intros Hnd Hu. split.
  - unfold main.list_urls. rewrite drop_0, firstn_all. now apply in_map.
  - intros Hinactive. unfold main.get_url_info.
    rewrite (proj2 (get_url_by_code_None db (URL.short_code u)));
      [reflexivity|].
    intros v Hv Hc. now rewrite (same_code_same_row db v u Hnd Hv Hu Hc).
Qed.

Lemma inactive_listed_not_found_witness :
  NoDup (codes retired_db) /\
  main.list_urls 0 1 retired_db
  = [main.URLResponse (URL.mk 1 "https://old.example" "abc123" 0 2 false None)]
  /\ main.get_url_info retired_db "abc123" = Raised not_found.
Proof.
  assert (NoDup (codes retired_db)) as Hnd by apply NoDup_singleton.
  split; [exact Hnd|]. split; [reflexivity|].
  exact (proj2 (inactive_listed_not_found retired_db
                  (URL.mk 1 "https://old.example" "abc123" 0 2 false None)
                  Hnd (or_introl eq_refl)) eq_refl).
Defined.
